(** * OpenEXRCore/compression.c: the deflate and gdeflate buffer adapter

    A shallow embedding of [src/lib/OpenEXRCore/compression.c] and the
    properties of its size estimator, its level resolution, its result
    codes, its page geometry and its in-place page compaction.

    - [size_t] values are integers in [0, 2^w) with the wrap-around of
      unsigned C arithmetic written out ([addw], [subw], [mulw]);
    - the compression engine (libdeflate) is an external collaborator: a
      record of response functions, universally quantified in the theorems;
    - the four codec entry points run in a small state monad over the
      caller's memory (the output buffer, the [size_t] cells reachable
      through [actual_out]) and a trace of engine events; dereferencing a
      null pointer or moving bytes outside the output buffer is undefined
      behaviour and ends the run in [Undefined];
    - the two page loops of [exr_compress_buffer_gdeflate] count with a C
      [int]: [init_out_pages_loop] and [compact_pages_loop] are the loops
      with that counter, undefined once it would pass [INT_MAX];
      [init_out_pages] and [compact_pages] are what they compute for page
      counts up to [INT_MAX], and every statement about the pages or the
      compaction carries that bound. *)

From Stdlib Require Import ZArith Lia.
From stdpp Require Import base option list gmap.

Local Open Scope Z_scope.

(** ** Unsigned machine arithmetic on [size_t] *)

Module SizeT.

Definition SIZE_MAX (w : Z) : Z := 2 ^ w - 1.

Definition wrap (w x : Z) : Z := x mod 2 ^ w.

Definition addw (w a b : Z) : Z := wrap w (a + b).
Definition subw (w a b : Z) : Z := wrap w (a - b).
Definition mulw (w a b : Z) : Z := wrap w (a * b).

(** A value a [size_t] variable can hold. *)
Definition is_size_t (w x : Z) : Prop := 0 <= x <= SIZE_MAX w.

End SizeT.

Import SizeT.

(** ** The bound estimator *)

(** [internal_compress_pad_buffer_size (in_bytes, r)], lines 18-45. *)
Definition internal_compress_pad_buffer_size (w in_bytes r : Z) : Z :=
  if SIZE_MAX w - 9 <? r then SIZE_MAX w
  else
    let r := addw w r 9 in
    let extra := mulw w in_bytes 130 in
    if extra <? in_bytes then SIZE_MAX w
    else
      let extra := extra / 128 in
      if SIZE_MAX w - 100 <? extra then SIZE_MAX w
      else if r <? extra then extra else r.

(** ** Result codes *)

(** The three [exr_result_t] codes this file returns. *)
Inductive exr_result_t : Set :=
| EXR_ERR_SUCCESS
| EXR_ERR_OUT_OF_MEMORY
| EXR_ERR_CORRUPT_CHUNK.

(** [enum libdeflate_result] of the engine. *)
Inductive libdeflate_result : Set :=
| LIBDEFLATE_SUCCESS
| LIBDEFLATE_BAD_DATA
| LIBDEFLATE_SHORT_OUTPUT
| LIBDEFLATE_INSUFFICIENT_SPACE.

Definition is_LIBDEFLATE_SUCCESS (res : libdeflate_result) : bool :=
  match res with LIBDEFLATE_SUCCESS => true | _ => false end.

(** Value Aras found to be better trade off of speed vs size. *)
Definition EXR_DEFAULT_ZLIB_COMPRESS_LEVEL : Z := 4.

(** ** Memory, pointers and page descriptors *)

Definition byte : Set := Byte.byte.

(** An engine context ([struct libdeflate_compressor *] and the like);
    a failed allocation is [None], the null pointer. *)
Definition handle : Set := nat.

(** The address of a caller-owned [size_t]; [actual_out : option loc] is
    [None] when the caller passes a null pointer. *)
Definition loc : Set := nat.

(** [struct libdeflate_gdeflate_out_page]: [data] is kept as the byte
    offset of the pointer from the start of the output buffer [out]. *)
Record out_page : Set := OutPage { data : Z; nbytes : Z }.

(** [struct libdeflate_gdeflate_in_page]: the input view and its length. *)
Record in_page : Set := InPage { in_data : list byte; in_nbytes : Z }.

(** The four kinds of engine context. *)
Inductive context_kind : Set :=
| Compressor
| Decompressor
| GdeflateCompressor
| GdeflateDecompressor.

(** What a call does to the outside world, in program order. *)
Inductive event : Set :=
| EvGetDefaultLevel (configured : Z)
| EvAlloc (k : context_kind) (level : option Z) (ret : option handle)
| EvRun (k : context_kind) (ctx : handle) (pages : list out_page)
| EvFree (k : context_kind) (ctx : handle).

(** The caller's memory as one call sees it, and the events so far. *)
Record World : Type := MkWorld {
  trace : list event;
  cells : gmap loc Z;      (* the size_t variables of the caller *)
  outbuf : list byte       (* the bytes at [out] *)
}.

(** ** The engine and the configuration, as collaborators *)

(** libdeflate, as the adapter sees it.  Every function returns what the
    engine answers for the given arguments; where the C function writes
    through a pointer the answer carries the value it stores. *)
Record libdeflate : Type := {
  libdeflate_zlib_compress_bound : Z -> Z;
  (* the bound, and the page count stored through [out_npages] *)
  libdeflate_gdeflate_compress_bound : Z -> Z * Z;
  libdeflate_alloc_compressor : Z -> option handle;
  (* comp, in, in_bytes, bytes at out, out_bytes_avail:
     the returned size and the bytes at out afterwards *)
  libdeflate_zlib_compress :
    handle -> list byte -> Z -> list byte -> Z -> Z * list byte;
  libdeflate_alloc_decompressor : option handle;
  (* decomp, in, in_bytes, bytes at out, out_bytes_avail, whether
     actual_out_nbytes_ret is non-null: the result code, the value stored
     in actual_in_nbytes_ret, the value stored through
     actual_out_nbytes_ret (if the engine stores one) and the bytes at out *)
  libdeflate_zlib_decompress_ex :
    handle -> list byte -> Z -> list byte -> Z -> bool ->
    libdeflate_result * Z * option Z * list byte;
  libdeflate_alloc_gdeflate_compressor : Z -> option handle;
  (* comp, in, in_bytes, bytes at out, out_pages, out_npages: the returned
     size, the descriptors the engine rewrote (by index) and the bytes at out *)
  libdeflate_gdeflate_compress :
    handle -> list byte -> Z -> list byte -> list out_page -> Z ->
    Z * list out_page * list byte;
  libdeflate_alloc_gdeflate_decompressor : option handle;
  (* decomp, in_pages (one page), in_npages, bytes at out, out_bytes_avail:
     the result code, the value stored through actual_out_nbytes_ret
     (if the engine stores one) and the bytes at out *)
  libdeflate_gdeflate_decompress :
    handle -> in_page -> Z -> list byte -> Z ->
    libdeflate_result * option Z * list byte
}.

(** ** The two public estimators *)

(** [exr_compress_max_buffer_size], lines 47-52. *)
Definition exr_compress_max_buffer_size (w : Z) (E : libdeflate) (in_bytes : Z)
    : Z :=
  let r := libdeflate_zlib_compress_bound E in_bytes in
  internal_compress_pad_buffer_size w in_bytes r.

(** [exr_compress_gdeflate_max_buffer_size], lines 54-61: the padded
    bound, the page count the engine stored through [out_page_count] and
    the page size stored through [out_page_size]; a page count of zero
    makes the division undefined. *)
Definition exr_compress_gdeflate_max_buffer_size (w : Z) (E : libdeflate)
    (in_bytes : Z) : option (Z * Z * Z) :=
  let '(r, out_page_count) := libdeflate_gdeflate_compress_bound E in_bytes in
  let r := internal_compress_pad_buffer_size w in_bytes r in
  if out_page_count =? 0 then None
  else Some (r, out_page_count, r / out_page_count).

(** ** A state monad with undefined behaviour

    A run either returns a value and the world it leaves, or stops in
    undefined behaviour; [Undefined σ] keeps the world as it was when the
    run stopped, so that what happened before can still be read. *)

Inductive outcome (A : Type) : Type :=
| Returns (a : A) (σ : World)
| Undefined (σ : World).
Arguments Returns {A} a σ.
Arguments Undefined {A} σ.

Definition M (A : Type) : Type := World -> outcome A.

#[export] Instance M_ret : MRet M := fun A a σ => Returns a σ.

#[export] Instance M_bind : MBind M := fun A B f m σ =>
  match m σ with
  | Returns a σ' => f a σ'
  | Undefined σ' => Undefined σ'
  end.

Definition emit (e : event) : M unit :=
  fun σ => Returns tt (MkWorld (trace σ ++ [e]) (cells σ) (outbuf σ)).

(** [*p = v] for a [size_t *p]: undefined on the null pointer. *)
Definition store_size_t (p : option loc) (v : Z) : M unit :=
  fun σ => match p with
           | Some l => Returns tt (MkWorld (trace σ) (<[l := v]> (cells σ)) (outbuf σ))
           | None => Undefined σ
           end.

Definition get_outbuf : M (list byte) := fun σ => Returns (outbuf σ) σ.

Definition set_outbuf (buf : list byte) : M unit :=
  fun σ => Returns tt (MkWorld (trace σ) (cells σ) buf).

(** Lift a partial memory operation: [None] is undefined behaviour. *)
Definition defined {A} (o : option A) : M A :=
  fun σ => match o with Some a => Returns a σ | None => Undefined σ end.

(** The result code of a run that returned. *)
Definition result_of {A} (o : outcome A) : option A :=
  match o with Returns a _ => Some a | Undefined _ => None end.

(** The world a run leaves behind, returned or not. *)
Definition world_of {A} (o : outcome A) : World :=
  match o with Returns _ σ => σ | Undefined σ => σ end.

(** ** Page geometry and compaction, on plain data *)

(** [memmove (out + dest, out + src, n)] on the bytes at [out]: the [n]
    source bytes are read before any is written, so overlapping ranges
    are fine; a range outside the buffer is undefined. *)
Definition memmove (buf : list byte) (dest src n : Z) : option (list byte) :=
  if bool_decide (0 <= dest /\ 0 <= src /\ 0 <= n /\
                  dest + n <= Z.of_nat (length buf) /\
                  src + n <= Z.of_nat (length buf))
  then Some (take (Z.to_nat dest) buf
             ++ take (Z.to_nat n) (drop (Z.to_nat src) buf)
             ++ drop (Z.to_nat (dest + n)) buf)
  else None.

(** Lines 172-173: a page count of zero stands for one page. *)
Definition normalize_page_count (out_page_count : Z) : Z :=
  if out_page_count =? 0 then 1 else out_page_count.

(** Lines 174-181: the descriptor array, one entry for each
    [i = 0 .. last_page], after [out_page_count] was normalized.  The loop
    counter is a C [int] compared with and multiplied by [size_t] values;
    while it stays within [int] it is not negative and converts to the
    same number.  This is the array in closed form;
    [init_out_pages_loop] below is the loop with its [int] counter, which
    builds this array for page counts up to [INT_MAX] and is undefined
    beyond. *)
Definition init_out_pages (w out_bytes_avail out_page_count out_page_size : Z)
    : list out_page :=
  let last_page := subw w out_page_count 1 in
  (fun i : Z =>
     OutPage (mulw w i out_page_size)
             (if i <? last_page then out_page_size
              else subw w out_bytes_avail (mulw w last_page out_page_size)))
  <$> seqZ 0 (last_page + 1).

(** The elements of [out_pages] after the engine rewrote some of them: the
    array keeps its length, an index the engine left alone keeps its value. *)
Definition rewrite_pages (out_pages answer : list out_page) : list out_page :=
  imap (fun i p => default p (answer !! i)) out_pages.

(** One turn of the loop of lines 194-198, on [(dest, bytes at out)]. *)
Definition compact_step (out_pages : list out_page)
    (st : Z * list byte) (i : Z) : option (Z * list byte) :=
  p ← out_pages !! Z.to_nat i;
  buf ← memmove st.2 st.1 (data p) (nbytes p);
  Some (st.1 + nbytes p, buf).

(** Run [step] over the indices in order, stopping at the first undefined turn. *)
Fixpoint for_each {S : Type} (step : S -> Z -> option S) (st : S) (idx : list Z)
    : option S :=
  match idx with
  | [] => Some st
  | i :: idx' => st' ← step st i; for_each step st' idx'
  end.

(** Lines 192-198: compact the output pages in place into a contiguous
    chunk, for [i = 1 .. out_page_count - 1].  Here the turns are taken
    over the indices themselves; [compact_pages_loop] below is the loop
    with its [int] counter, equal to this one for page counts up to
    [INT_MAX]. *)
Definition compact_pages (out_pages : list out_page) (out_page_count : Z)
    (buf : list byte) : option (list byte) :=
  p0 ← out_pages !! 0%nat;
  let dest := data p0 + nbytes p0 in
  snd <$> for_each (compact_step out_pages) (dest, buf) (seqZ 1 (out_page_count - 1)).

(** The bytes a page holds: [nbytes] bytes from its [data] pointer. *)
Definition page_bytes (buf : list byte) (p : out_page) : list byte :=
  take (Z.to_nat (nbytes p)) (drop (Z.to_nat (data p)) buf).

(** The sum of the pages' lengths. *)
Definition total_nbytes (pages : list out_page) : Z :=
  foldr (fun p acc => nbytes p + acc) 0 pages.

(** ** The [int] loop counters *)

(** [INT_MAX] of the [int] that counts the pages in lines 176 and 194 (a
    32-bit [int]). *)
Definition INT_MAX : Z := 2147483647.

(** [++i] on an [int]: undefined once [i] has reached [INT_MAX]. *)
Definition int_succ (i : Z) : option Z :=
  if i <? INT_MAX then Some (i + 1) else None.

(** [for (int i = first; ...; ++i) body], [turns] turns long: the counter
    goes up by one, so the loop test holds for exactly the first [turns]
    values; every turn, the last one too, ends with [++i]. *)
Fixpoint for_int {St : Type} (body : St -> Z -> option St) (turns : nat)
    (i : Z) (st : St) : option St :=
  match turns with
  | O => Some st
  | S turns' =>
      st' ← body st i; i' ← int_succ i; for_int body turns' i' st'
  end.

(** Lines 174-181 as the loop runs: [for (int i = 0; i <= last_page; ++i)],
    one descriptor stored for each turn. *)
Definition init_out_pages_loop
    (w out_bytes_avail out_page_count out_page_size : Z)
    : option (list out_page) :=
  let last_page := subw w out_page_count 1 in
  for_int
    (fun out_pages i =>
       Some (out_pages
             ++ [OutPage (mulw w i out_page_size)
                   (if i <? last_page then out_page_size
                    else subw w out_bytes_avail
                           (mulw w last_page out_page_size))]))
    (Z.to_nat (last_page + 1)) 0 [].

(** Lines 192-198 as the loop runs:
    [for (int i = 1; i < out_page_count; ++i)]. *)
Definition compact_pages_loop (out_pages : list out_page) (out_page_count : Z)
    (buf : list byte) : option (list byte) :=
  p0 ← out_pages !! 0%nat;
  let dest := data p0 + nbytes p0 in
  snd <$> for_int (compact_step out_pages) (Z.to_nat (out_page_count - 1)) 1
            (dest, buf).

(** ** The four codec operations *)

Section Codec.

(** The width of [size_t] in bits. *)
Variable w : Z.

(** The engine behind the calls. *)
Variable E : libdeflate.

(** The process-wide default level that
    [exr_get_default_zip_compression_level] stores through its argument
    (negative while unset). *)
Variable default_zip_compression_level : Z.

Definition exr_get_default_zip_compression_level : M Z :=
  emit (EvGetDefaultLevel default_zip_compression_level);;
  mret default_zip_compression_level.

(** Lines 75-81 and 159-165: the level handed to the allocator. *)
Definition resolve_level (level : Z) : M Z :=
  if level <? 0 then
    level ← exr_get_default_zip_compression_level;
    (* truly unset anywhere *)
    if level <? 0 then mret EXR_DEFAULT_ZLIB_COMPRESS_LEVEL else mret level
  else mret level.

(** *** Engine calls as monadic steps *)

Definition alloc_compressor (level : Z) : M (option handle) :=
  let comp := libdeflate_alloc_compressor E level in
  emit (EvAlloc Compressor (Some level) comp);; mret comp.

Definition alloc_decompressor : M (option handle) :=
  let decomp := libdeflate_alloc_decompressor E in
  emit (EvAlloc Decompressor None decomp);; mret decomp.

Definition alloc_gdeflate_compressor (level : Z) : M (option handle) :=
  let comp := libdeflate_alloc_gdeflate_compressor E level in
  emit (EvAlloc GdeflateCompressor (Some level) comp);; mret comp.

Definition alloc_gdeflate_decompressor : M (option handle) :=
  let decomp := libdeflate_alloc_gdeflate_decompressor E in
  emit (EvAlloc GdeflateDecompressor None decomp);; mret decomp.

Definition free_context (k : context_kind) (ctx : handle) : M unit :=
  emit (EvFree k ctx).

Definition zlib_compress (comp : handle) (inp : list byte)
    (in_bytes out_bytes_avail : Z) : M Z :=
  buf ← get_outbuf;
  let '(outsz, buf') :=
    libdeflate_zlib_compress E comp inp in_bytes buf out_bytes_avail in
  emit (EvRun Compressor comp []);;
  set_outbuf buf';;
  mret outsz.

(** The engine is handed [actual_out] as it came from the caller and
    stores through it only when it is non-null. *)
Definition zlib_decompress_ex (decomp : handle) (inp : list byte)
    (in_bytes out_bytes_avail : Z) (actual_out : option loc)
    : M (libdeflate_result * Z) :=
  buf ← get_outbuf;
  let '(res, actual_in_bytes, produced, buf') :=
    libdeflate_zlib_decompress_ex E decomp inp in_bytes buf out_bytes_avail
      (bool_decide (is_Some actual_out)) in
  emit (EvRun Decompressor decomp []);;
  set_outbuf buf';;
  match actual_out, produced with
  | Some _, Some n => store_size_t actual_out n
  | _, _ => mret tt
  end;;
  mret (res, actual_in_bytes).

Definition gdeflate_compress (comp : handle) (inp : list byte) (in_bytes : Z)
    (out_pages : list out_page) (out_npages : Z) : M (Z * list out_page) :=
  buf ← get_outbuf;
  let '(outsz, answer, buf') :=
    libdeflate_gdeflate_compress E comp inp in_bytes buf out_pages out_npages in
  emit (EvRun GdeflateCompressor comp out_pages);;
  set_outbuf buf';;
  mret (outsz, rewrite_pages out_pages answer).

Definition gdeflate_decompress (decomp : handle) (page : in_page)
    (in_npages out_bytes_avail : Z) (actual_out : option loc)
    : M libdeflate_result :=
  buf ← get_outbuf;
  let '(res, produced, buf') :=
    libdeflate_gdeflate_decompress E decomp page in_npages buf out_bytes_avail in
  emit (EvRun GdeflateDecompressor decomp []);;
  set_outbuf buf';;
  match actual_out, produced with
  | Some _, Some n => store_size_t actual_out n
  | _, _ => mret tt
  end;;
  mret res.

(** *** [exr_compress_buffer], lines 65-105 *)
Definition exr_compress_buffer (level : Z) (inp : list byte)
    (in_bytes out_bytes_avail : Z) (actual_out : option loc)
    : M exr_result_t :=
  level ← resolve_level level;
  comp ← alloc_compressor level;
  match comp with
  | Some comp =>
      outsz ← zlib_compress comp inp in_bytes out_bytes_avail;
      free_context Compressor comp;;
      if negb (outsz =? 0) then
        (if bool_decide (is_Some actual_out)
         then store_size_t actual_out outsz else mret tt);;
        mret EXR_ERR_SUCCESS
      else mret EXR_ERR_OUT_OF_MEMORY
  | None => mret EXR_ERR_OUT_OF_MEMORY
  end.

(** *** [exr_uncompress_buffer], lines 109-143 *)
Definition exr_uncompress_buffer (inp : list byte)
    (in_bytes out_bytes_avail : Z) (actual_out : option loc)
    : M exr_result_t :=
  decomp ← alloc_decompressor;
  match decomp with
  | Some decomp =>
      '(res, actual_in_bytes) ←
        zlib_decompress_ex decomp inp in_bytes out_bytes_avail actual_out;
      free_context Decompressor decomp;;
      if is_LIBDEFLATE_SUCCESS res then
        if in_bytes =? actual_in_bytes then mret EXR_ERR_SUCCESS
        (* it's an error to not consume the full buffer, right? *)
        else mret EXR_ERR_CORRUPT_CHUNK
      else mret EXR_ERR_CORRUPT_CHUNK
  | None => mret EXR_ERR_OUT_OF_MEMORY
  end.

(** *** [exr_compress_buffer_gdeflate], lines 147-205 *)
Definition exr_compress_buffer_gdeflate (level : Z) (inp : list byte)
    (in_bytes out_bytes_avail out_page_count out_page_size : Z)
    (actual_out : option loc) : M exr_result_t :=
  level ← resolve_level level;
  comp ← alloc_gdeflate_compressor level;
  match comp with
  | Some comp =>
      (* The output buffer is contiguous, but gdeflate compress expects
         an array of pages. *)
      let out_page_count := normalize_page_count out_page_count in
      let out_pages :=
        init_out_pages w out_bytes_avail out_page_count out_page_size in
      '(outsz, out_pages) ←
        gdeflate_compress comp inp in_bytes out_pages out_page_count;
      free_context GdeflateCompressor comp;;
      if negb (outsz =? 0) then
        (if bool_decide (is_Some actual_out)
         then store_size_t actual_out outsz else mret tt);;
        (* Compact the output pages in place into a contiguous chunk. *)
        buf ← get_outbuf;
        buf' ← defined (compact_pages out_pages out_page_count buf);
        set_outbuf buf';;
        mret EXR_ERR_SUCCESS
      else mret EXR_ERR_OUT_OF_MEMORY
  | None => mret EXR_ERR_OUT_OF_MEMORY
  end.

(** *** [exr_uncompress_buffer_gdeflate], lines 209-239 *)
Definition exr_uncompress_buffer_gdeflate (inp : list byte)
    (in_bytes out_bytes_avail : Z) (actual_out : option loc)
    : M exr_result_t :=
  let page := InPage inp in_bytes in
  decomp ← alloc_gdeflate_decompressor;
  match decomp with
  | Some decomp =>
      store_size_t actual_out out_bytes_avail;;
      res ← gdeflate_decompress decomp page 1 out_bytes_avail actual_out;
      free_context GdeflateDecompressor decomp;;
      if is_LIBDEFLATE_SUCCESS res then mret EXR_ERR_SUCCESS
      else mret EXR_ERR_CORRUPT_CHUNK
  | None => mret EXR_ERR_OUT_OF_MEMORY
  end.

End Codec.

(** ** Reading traces *)

#[export] Instance context_kind_eq_dec : EqDecision context_kind.
Proof. solve_decision. Defined.

(** Give back one context: the first matching entry goes. *)
Fixpoint release (c : context_kind * handle) (held : list (context_kind * handle))
    : list (context_kind * handle) :=
  match held with
  | [] => []
  | c' :: held' => if decide (c = c') then held' else c' :: release c held'
  end.

(** The contexts allocated and not yet freed after the events [t], starting
    from the contexts [held]. *)
Fixpoint held_after (held : list (context_kind * handle)) (t : list event)
    : list (context_kind * handle) :=
  match t with
  | [] => held
  | EvAlloc k _ (Some ctx) :: t' => held_after ((k, ctx) :: held) t'
  | EvFree k ctx :: t' => held_after (release (k, ctx) held) t'
  | _ :: t' => held_after held t'
  end.

(** Every context allocated in [t] is freed later in [t]. *)
Definition every_alloc_freed (t : list event) : Prop :=
  forall (i : nat) k level ctx,
    t !! i = Some (EvAlloc k level (Some ctx)) ->
    exists j : nat, (i < j)%nat /\ t !! j = Some (EvFree k ctx).

(** The level of the first allocation in [t], if there is one. *)
Fixpoint allocated_level (t : list event) : option Z :=
  match t with
  | [] => None
  | EvAlloc _ level _ :: _ => level
  | _ :: t' => allocated_level t'
  end.

(** Whether [t] reads the configured default level. *)
Definition consults_default (t : list event) : bool :=
  existsb (fun e => match e with EvGetDefaultLevel _ => true | _ => false end) t.

(** The descriptors handed to the page-split compressor in [t], if it ran. *)
Fixpoint pages_handed_over (t : list event) : option (list out_page) :=
  match t with
  | [] => None
  | EvRun GdeflateCompressor _ pages :: _ => Some pages
  | _ :: t' => pages_handed_over t'
  end.

(** Level resolution in the words of the specification: a requested level
    that is not negative stands; otherwise the configured default, and the
    built-in default when that is negative too. *)
Definition spec_resolve_level (configured requested : Z) : Z :=
  if 0 <=? requested then requested
  else if 0 <=? configured then configured
  else EXR_DEFAULT_ZLIB_COMPRESS_LEVEL.

(** ** Vocabulary of the statements *)

(** The level lines 75-81 leave in [level]. *)
Definition level_after_resolve (configured level : Z) : Z :=
  if level <? 0 then
    if configured <? 0 then EXR_DEFAULT_ZLIB_COMPRESS_LEVEL else configured
  else level.

(** The events of lines 75-81. *)
Definition resolve_events (configured level : Z) : list event :=
  if level <? 0 then [EvGetDefaultLevel configured] else [].

(** The cells after [if (actual_out) *actual_out = v]. *)
Definition cells_after_report (actual_out : option loc) (v : Z)
    (c : gmap loc Z) : gmap loc Z :=
  match actual_out with Some l => <[l := v]> c | None => c end.

(** The cells after an engine was handed [actual_out] and stored [produced]. *)
Definition cells_after_engine (actual_out : option loc) (produced : option Z)
    (c : gmap loc Z) : gmap loc Z :=
  match actual_out, produced with
  | Some l, Some n => <[l := n]> c
  | _, _ => c
  end.

(** The events a run added to the trace it started from. *)
Definition new_events {A} (σ : World) (o : outcome A) : list event :=
  drop (length (trace σ)) (trace (world_of o)).

(** The pages lie where the geometry puts them and hold what fits: page
    [i] starts at [i * page_size], ends inside the buffer, and every page
    but the last stays within its slot of [page_size] bytes. *)
Definition pages_fit (page_size : Z) (buf : list byte) (pages : list out_page)
    : Prop :=
  forall (i : nat) p, pages !! i = Some p ->
    data p = Z.of_nat i * page_size
    /\ 0 <= nbytes p
    /\ data p + nbytes p <= Z.of_nat (length buf)
    /\ ((S i < length pages)%nat -> nbytes p <= page_size).

(** What the engine must respect for the compaction to be meaningful: it
    leaves the data pointers alone and reports, for every page, a length
    between zero and the capacity it was given. *)
Definition engine_respects_pages (pages0 pages : list out_page) : Prop :=
  Forall2 (fun p0 p => data p = data p0 /\ 0 <= nbytes p <= nbytes p0)
          pages0 pages.

(** The events between a successful allocation and the return. *)
Definition bracket (k : context_kind) (level : option Z) (ctx : handle)
    (pages : list out_page) : list event :=
  [EvAlloc k level (Some ctx); EvRun k ctx pages; EvFree k ctx].

(** A run that returns has freed every context it allocated: its events
    extend the trace it started from, leave no context held, and every
    successful allocation among them is followed by the free of the same
    context. *)
Definition releases_contexts (σ : World) (o : outcome exr_result_t) : Prop :=
  trace (world_of o) = trace σ ++ new_events σ o
  /\ (is_Some (result_of o) ->
      held_after [] (new_events σ o) = []
      /\ every_alloc_freed (new_events σ o)).

(** The allocations in [t]: the kind asked for and what came back. *)
Definition allocations (t : list event) : list (context_kind * option handle) :=
  omap (fun e => match e with EvAlloc k _ ret => Some (k, ret) | _ => None end) t.

(** The engine runs in [t]: the kind of call and the context it ran with. *)
Definition engine_runs (t : list event) : list (context_kind * handle) :=
  omap (fun e => match e with EvRun k ctx _ => Some (k, ctx) | _ => None end) t.

(** One call, one context: [t] holds a single allocation, of kind [k], and
    the engine runs at most once, with the context that allocation
    returned. *)
Definition one_context_per_call (k : context_kind) (t : list event) : Prop :=
  exists ret,
    allocations t = [(k, ret)]
    /\ (engine_runs t = []
        \/ exists ctx, ret = Some ctx /\ engine_runs t = [(k, ctx)]).

(** ** A small engine to run the code on

    A copy-through engine: "compression" stores the input unchanged, so
    every answer can be computed.  The page-split variant cuts the input
    into [out_npages] chunks of equal length (the last one shorter) and
    stores chunk [i] at the data pointer of page [i]. *)

Module Toy.

(** Overwrite the bytes at offset [off] with [bs]. *)
Definition put (buf : list byte) (off : Z) (bs : list byte) : list byte :=
  list_inserts (Z.to_nat off) bs buf.

Definition copy_bound (in_bytes : Z) : Z := in_bytes + 20.

Definition copy_paged_bound (in_bytes : Z) : Z * Z :=
  (in_bytes + 20, 1 + in_bytes / 65536).

Definition copy_compress (comp : handle) (inp : list byte) (in_bytes : Z)
    (buf : list byte) (avail : Z) : Z * list byte :=
  if (in_bytes =? 0) || (avail <? in_bytes) then (0, buf)
  else (in_bytes, put buf 0 (take (Z.to_nat in_bytes) inp)).

(** The stream is the first byte-count of [in_bytes - trailing] bytes; a
    decoder stops at the end of the stream and reports what it consumed. *)
Definition copy_decompress (trailing : Z) (decomp : handle)
    (inp : list byte) (in_bytes : Z) (buf : list byte) (avail : Z)
    (wants_size : bool) : libdeflate_result * Z * option Z * list byte :=
  let n := in_bytes - trailing in
  if (n <? 0) then (LIBDEFLATE_BAD_DATA, 0, None, buf)
  else if avail <? n then (LIBDEFLATE_INSUFFICIENT_SPACE, 0, None, buf)
  else (LIBDEFLATE_SUCCESS, n, Some n, put buf 0 (take (Z.to_nat n) inp)).

Definition chunk_length (in_bytes out_npages : Z) : Z :=
  (in_bytes + out_npages - 1) / out_npages.

Definition chunk (inp : list byte) (k : Z) (i : nat) : list byte :=
  take (Z.to_nat k) (drop (i * Z.to_nat k) inp).

Definition copy_paged_compress (comp : handle) (inp : list byte) (in_bytes : Z)
    (buf : list byte) (out_pages : list out_page) (out_npages : Z)
    : Z * list out_page * list byte :=
  let k := chunk_length in_bytes out_npages in
  if forallb (fun p => k <=? nbytes p) out_pages then
    (in_bytes,
     imap (fun i p => OutPage (data p) (Z.of_nat (length (chunk inp k i)))) out_pages,
     foldr (fun ip b => put b (data ip.2) (chunk inp k ip.1)) buf
           (imap (fun i p => (i, p)) out_pages))
  else (0, [], buf).

Definition copy_paged_decompress (decomp : handle) (page : in_page)
    (in_npages : Z) (buf : list byte) (avail : Z)
    : libdeflate_result * option Z * list byte :=
  if avail <? in_nbytes page then (LIBDEFLATE_INSUFFICIENT_SPACE, None, buf)
  else (LIBDEFLATE_SUCCESS, Some (in_nbytes page),
        put buf 0 (take (Z.to_nat (in_nbytes page)) (in_data page))).

(** The engine; [ctx] is what every allocation returns and [trailing] the
    number of input bytes the zlib decoder leaves unread. *)
Definition engine (ctx : option handle) (trailing : Z) : libdeflate := {|
  libdeflate_zlib_compress_bound := copy_bound;
  libdeflate_gdeflate_compress_bound := copy_paged_bound;
  libdeflate_alloc_compressor := fun _ => ctx;
  libdeflate_zlib_compress := copy_compress;
  libdeflate_alloc_decompressor := ctx;
  libdeflate_zlib_decompress_ex := copy_decompress trailing;
  libdeflate_alloc_gdeflate_compressor := fun _ => ctx;
  libdeflate_gdeflate_compress := copy_paged_compress;
  libdeflate_alloc_gdeflate_decompressor := ctx;
  libdeflate_gdeflate_decompress := copy_paged_decompress
|}.

(** A caller with nothing allocated yet and [n] zero bytes at [out]. *)
Definition fresh (n : nat) : World := MkWorld [] ∅ (replicate n Byte.x00).

Definition abcdef : list byte :=
  [Byte.x61; Byte.x62; Byte.x63; Byte.x64; Byte.x65; Byte.x66].

End Toy.

(** * Properties *)

(** ** Facts about [size_t] arithmetic *)

Lemma pow2_pos w : 0 <= w -> 0 < 2 ^ w.
Proof. intros Hw. apply Z.pow_pos_nonneg; lia. Qed.

Lemma wrap_range w x : 0 <= w -> is_size_t w (wrap w x).
Proof.
  intros Hw. unfold is_size_t, SIZE_MAX, wrap.
  pose proof (pow2_pos w Hw) as Hp.
  pose proof (Z.mod_pos_bound x (2 ^ w) Hp). lia.
Qed.

Lemma wrap_small w x : 0 <= x <= SIZE_MAX w -> wrap w x = x.
Proof. unfold SIZE_MAX, wrap. intros H. apply Z.mod_small. lia. Qed.

(** A difference that went below zero comes back as [2^w] more. *)
Lemma subw_borrow w a b :
  0 <= w -> is_size_t w a -> is_size_t w b -> a < b ->
  subw w a b = a - b + 2 ^ w.
Proof.
  unfold is_size_t, SIZE_MAX, subw, wrap. intros Hw Ha Hb Hlt.
  symmetry. apply (Z.mod_unique _ _ (-1)); lia.
Qed.

Lemma subw_exact w a b :
  is_size_t w a -> 0 <= b <= a -> subw w a b = a - b.
Proof.
  unfold is_size_t, subw. intros Ha Hb. apply wrap_small. lia.
Qed.

Lemma size_max_16 w : 16 <= w -> 65535 <= SIZE_MAX w.
Proof.
  intros Hw. unfold SIZE_MAX.
  assert (2 ^ 16 <= 2 ^ w) by (apply Z.pow_le_mono_r; lia).
  change (2 ^ 16) with 65536 in *. lia.
Qed.

Lemma pow2_split w : 7 <= w -> 2 ^ w = 128 * 2 ^ (w - 7).
Proof.
  intros Hw. replace w with (7 + (w - 7)) at 1 by lia.
  rewrite Z.pow_add_r by lia. reflexivity.
Qed.

Lemma pow2_ge_512 w : 16 <= w -> 512 <= 2 ^ (w - 7).
Proof.
  intros Hw. change 512 with (2 ^ 9). apply Z.pow_le_mono_r; lia.
Qed.

(** ** The bound estimator *)

(** Decide the comparisons of the estimator one after the other. *)
Ltac ltb_cases :=
  repeat match goal with
         | |- context [?a <? ?b] => destruct (Z.ltb_spec a b); try lia
         end.

(** Outside the saturating cases the estimator is the larger of [r + 9]
    and [in_bytes * 130 / 128]: nothing is added to the second. *)
Lemma pad_buffer_size_value w in_bytes r :
  16 <= w -> 0 <= in_bytes -> in_bytes * 130 <= SIZE_MAX w ->
  0 <= r <= SIZE_MAX w - 9 ->
  internal_compress_pad_buffer_size w in_bytes r
  = Z.max (r + 9) (in_bytes * 130 / 128).
Proof.
  intros Hw Hn Hmul Hr. pose proof (size_max_16 w Hw) as Hmax.
  unfold internal_compress_pad_buffer_size, addw, mulw.
  rewrite !wrap_small by lia.
  assert (0 <= in_bytes * 130 / 128) by (apply Z.div_pos; lia).
  assert (128 * (in_bytes * 130 / 128) <= in_bytes * 130)
    by (apply Z.mul_div_le; lia).
  ltb_cases.
Qed.

(** The estimator never answers less than the engine's own bound. *)
Lemma pad_buffer_size_ge_native_bound w in_bytes r :
  0 <= w -> is_size_t w r ->
  r <= internal_compress_pad_buffer_size w in_bytes r.
Proof.
  intros Hw [Hr0 Hr]. unfold internal_compress_pad_buffer_size, addw.
  destruct (Z.ltb_spec (SIZE_MAX w - 9) r); [lia|].
  rewrite wrap_small by lia. ltb_cases.
Qed.

(** An engine bound within 9 of [SIZE_MAX] saturates. *)
Lemma pad_buffer_size_saturates_add w in_bytes r :
  SIZE_MAX w - 9 < r ->
  internal_compress_pad_buffer_size w in_bytes r = SIZE_MAX w.
Proof.
  intros Hr. unfold internal_compress_pad_buffer_size.
  destruct (Z.ltb_spec (SIZE_MAX w - 9) r); [reflexivity|lia].
Qed.

(** The largest inputs saturate: for [in_bytes = SIZE_MAX - k] with
    [130 * (k + 1) <= 2^w] the wrapped product is [2^w - 130 * (k + 1)],
    which is below [in_bytes]. *)
Lemma pad_buffer_size_saturates_near_max w k r :
  0 <= w -> 0 <= k -> 130 * (k + 1) <= 2 ^ w ->
  internal_compress_pad_buffer_size w (SIZE_MAX w - k) r = SIZE_MAX w.
Proof.
  intros Hw Hk Hfit. unfold internal_compress_pad_buffer_size.
  destruct (Z.ltb_spec (SIZE_MAX w - 9) r); [reflexivity|].
  assert (Hmul : mulw w (SIZE_MAX w - k) 130 = 2 ^ w - 130 * (k + 1)).
  { unfold mulw, wrap, SIZE_MAX. symmetry.
    apply (Z.mod_unique _ _ 129); lia. }
  rewrite Hmul. unfold SIZE_MAX.
  destruct (Z.ltb_spec (2 ^ w - 130 * (k + 1)) (2 ^ w - 1 - k)); [reflexivity|lia].
Qed.

(** The page-split estimator pads the engine's bound in the same way and
    divides it by the engine's page count, rounding down. *)
Lemma gdeflate_max_buffer_size_value w E in_bytes :
  let r := (libdeflate_gdeflate_compress_bound E in_bytes).1 in
  let page_count := (libdeflate_gdeflate_compress_bound E in_bytes).2 in
  page_count <> 0 ->
  exr_compress_gdeflate_max_buffer_size w E in_bytes
  = Some (internal_compress_pad_buffer_size w in_bytes r, page_count,
          internal_compress_pad_buffer_size w in_bytes r / page_count).
Proof.
  cbv zeta. unfold exr_compress_gdeflate_max_buffer_size.
  destruct (libdeflate_gdeflate_compress_bound E in_bytes) as [r pc]. simpl.
  intros Hpc. destruct (Z.eqb_spec pc 0); [contradiction|reflexivity].
Qed.

(** C1.  Where nothing saturates the estimator returns the larger of
    [r + 9] and [(in_bytes * 130) / 128]; the 100 of the legacy formula is
    tested for overflow but never added, so whenever
    [r + 9 < (in_bytes * 130) / 128 + 100] the result is strictly below the
    larger of [r + 9] and [(in_bytes * 130) / 128 + 100].  The result is
    still never below the engine's bound [r]. *)
Theorem pad_buffer_size_omits_legacy_100 w E in_bytes :
  let r := libdeflate_zlib_compress_bound E in_bytes in
  16 <= w -> 0 <= in_bytes -> in_bytes * 130 <= SIZE_MAX w ->
  0 <= r <= SIZE_MAX w - 9 ->
  r + 9 < in_bytes * 130 / 128 + 100 ->
  internal_compress_pad_buffer_size w in_bytes r
    = Z.max (r + 9) (in_bytes * 130 / 128)
  /\ exr_compress_max_buffer_size w E in_bytes
    = Z.max (r + 9) (in_bytes * 130 / 128)
  /\ exr_compress_max_buffer_size w E in_bytes
    < Z.max (r + 9) (in_bytes * 130 / 128 + 100)
  /\ r <= exr_compress_max_buffer_size w E in_bytes.
Proof.
  intros r Hw Hn Hmul Hr Hlt.
  unfold exr_compress_max_buffer_size. fold r.
  rewrite (pad_buffer_size_value w in_bytes r) by assumption.
  lia.
Qed.

(** An empty input, for which the copy-through engine's bound is 20: the
    estimator answers 29, the legacy formula asks for 100. *)
Lemma pad_buffer_size_omits_legacy_100_witness :
  exr_compress_max_buffer_size 64 (Toy.engine None 0) 0 = 29
  /\ exr_compress_max_buffer_size 64 (Toy.engine None 0) 0
     < Z.max (20 + 9) (0 * 130 / 128 + 100).
Proof.
  destruct (pad_buffer_size_omits_legacy_100 64 (Toy.engine None 0) 0)
    as (_ & Hval & Hlt & _).
  - vm_compute; congruence.
  - vm_compute; congruence.
  - vm_compute; congruence.
  - vm_compute; split; congruence.
  - vm_compute; congruence.
  - split; [rewrite Hval; reflexivity | exact Hlt].
Defined.

(** C2.  The overflow test of the multiplication, [extra < in_bytes], lets
    some overflows through: for [in_bytes = 2^(w-7)] the product
    [in_bytes * 130] exceeds [SIZE_MAX] and wraps to [2 * in_bytes], which
    is not below [in_bytes]; the estimator then returns [r + 9], not the
    saturation value. *)
Theorem pad_buffer_size_misses_mul_overflow w r :
  16 <= w -> 2 ^ (w - 7) <= r -> r < SIZE_MAX w - 9 ->
  SIZE_MAX w < 2 ^ (w - 7) * 130
  /\ mulw w (2 ^ (w - 7)) 130 = 2 * 2 ^ (w - 7)
  /\ internal_compress_pad_buffer_size w (2 ^ (w - 7)) r = r + 9
  /\ internal_compress_pad_buffer_size w (2 ^ (w - 7)) r <> SIZE_MAX w.
Proof.
  intros Hw Hlo Hhi.
  pose proof (pow2_split w ltac:(lia)) as Hsplit.
  pose proof (pow2_ge_512 w Hw) as Hm.
  assert (Hmul : mulw w (2 ^ (w - 7)) 130 = 2 * 2 ^ (w - 7)).
  { unfold mulw, wrap. symmetry. apply (Z.mod_unique _ _ 1); lia. }
  assert (Hval : internal_compress_pad_buffer_size w (2 ^ (w - 7)) r = r + 9).
  { unfold internal_compress_pad_buffer_size. rewrite Hmul.
    unfold addw. rewrite wrap_small by (unfold SIZE_MAX in *; lia).
    unfold SIZE_MAX in *.
    assert (0 <= 2 * 2 ^ (w - 7) / 128) by (apply Z.div_pos; lia).
    assert (128 * (2 * 2 ^ (w - 7) / 128) <= 2 * 2 ^ (w - 7))
      by (apply Z.mul_div_le; lia).
    ltb_cases. }
  unfold SIZE_MAX in *. repeat split; lia.
Qed.

(** 64-bit [size_t], [in_bytes = 2^57] and an engine bound just above it. *)
Lemma pad_buffer_size_misses_mul_overflow_witness :
  SIZE_MAX 64 < 2 ^ (64 - 7) * 130
  /\ mulw 64 (2 ^ (64 - 7)) 130 = 2 * 2 ^ (64 - 7)
  /\ internal_compress_pad_buffer_size 64 (2 ^ (64 - 7)) (2 ^ 57 + 20) = 2 ^ 57 + 20 + 9
  /\ internal_compress_pad_buffer_size 64 (2 ^ (64 - 7)) (2 ^ 57 + 20) <> SIZE_MAX 64.
Proof.
  apply (pad_buffer_size_misses_mul_overflow 64 (2 ^ 57 + 20)); vm_compute; congruence.
Defined.

(** ** What a run of each operation is *)

Ltac unfold_codec :=
  unfold exr_compress_buffer, exr_uncompress_buffer,
    exr_compress_buffer_gdeflate, exr_uncompress_buffer_gdeflate,
    resolve_level, exr_get_default_zip_compression_level,
    alloc_compressor, alloc_decompressor, alloc_gdeflate_compressor,
    alloc_gdeflate_decompressor, free_context, zlib_compress,
    zlib_decompress_ex, gdeflate_compress, gdeflate_decompress,
    get_outbuf, set_outbuf, emit, store_size_t, defined,
    level_after_resolve, resolve_events, cells_after_report, cells_after_engine,
    mbind, mret, M_bind, M_ret.

Lemma resolve_level_run d level σ :
  resolve_level d level σ
  = Returns (level_after_resolve d level)
      (MkWorld (trace σ ++ resolve_events d level) (cells σ) (outbuf σ)).
Proof.
  unfold_codec. destruct σ as [t c b]; simpl.
  destruct (level <? 0); simpl; [destruct (d <? 0)|]; simpl;
    rewrite ?app_nil_r; reflexivity.
Qed.

Lemma exr_compress_buffer_run E d level inp in_bytes avail actual_out σ :
  exr_compress_buffer E d level inp in_bytes avail actual_out σ
  = let lv := level_after_resolve d level in
    let pre := trace σ ++ resolve_events d level in
    match libdeflate_alloc_compressor E lv with
    | None =>
        Returns EXR_ERR_OUT_OF_MEMORY
          (MkWorld (pre ++ [EvAlloc Compressor (Some lv) None])
                   (cells σ) (outbuf σ))
    | Some comp =>
        let r := libdeflate_zlib_compress E comp inp in_bytes (outbuf σ) avail in
        let t := pre ++ [EvAlloc Compressor (Some lv) (Some comp);
                         EvRun Compressor comp [];
                         EvFree Compressor comp] in
        if r.1 =? 0
        then Returns EXR_ERR_OUT_OF_MEMORY (MkWorld t (cells σ) r.2)
        else Returns EXR_ERR_SUCCESS
               (MkWorld t (cells_after_report actual_out r.1 (cells σ)) r.2)
    end.
Proof.
  unfold exr_compress_buffer. unfold mbind at 1, M_bind at 1.
  rewrite resolve_level_run. unfold_codec. simpl.
  destruct (libdeflate_alloc_compressor E _) as [comp|]; simpl; [|reflexivity].
  destruct (libdeflate_zlib_compress E comp inp in_bytes (outbuf σ) avail)
    as [outsz buf'] eqn:Hrun; simpl.
  destruct (outsz =? 0); simpl; rewrite <- ?app_assoc; simpl; [reflexivity|].
  destruct actual_out; simpl; reflexivity.
Qed.

Lemma exr_uncompress_buffer_run E inp in_bytes avail actual_out σ :
  exr_uncompress_buffer E inp in_bytes avail actual_out σ
  = match libdeflate_alloc_decompressor E with
    | None =>
        Returns EXR_ERR_OUT_OF_MEMORY
          (MkWorld (trace σ ++ [EvAlloc Decompressor None None])
                   (cells σ) (outbuf σ))
    | Some decomp =>
        let '(res, actual_in_bytes, produced, buf') :=
          libdeflate_zlib_decompress_ex E decomp inp in_bytes (outbuf σ) avail
            (bool_decide (is_Some actual_out)) in
        Returns
          (if is_LIBDEFLATE_SUCCESS res && (in_bytes =? actual_in_bytes)
           then EXR_ERR_SUCCESS else EXR_ERR_CORRUPT_CHUNK)
          (MkWorld (trace σ ++ [EvAlloc Decompressor None (Some decomp);
                                EvRun Decompressor decomp [];
                                EvFree Decompressor decomp])
                   (cells_after_engine actual_out produced (cells σ)) buf')
    end.
Proof.
  unfold_codec. simpl.
  destruct (libdeflate_alloc_decompressor E) as [decomp|]; simpl; [|reflexivity].
  destruct (libdeflate_zlib_decompress_ex E decomp inp in_bytes (outbuf σ) avail _)
    as [[[res actual_in] produced] buf']; simpl.
  destruct actual_out as [l|], produced as [n|]; simpl;
    destruct (is_LIBDEFLATE_SUCCESS res); simpl;
    try destruct (in_bytes =? actual_in); simpl;
    rewrite <- ?app_assoc; reflexivity.
Qed.

Lemma exr_compress_buffer_gdeflate_run
    w E d level inp in_bytes avail page_count page_size actual_out σ :
  exr_compress_buffer_gdeflate w E d level inp in_bytes avail
    page_count page_size actual_out σ
  = let lv := level_after_resolve d level in
    let pre := trace σ ++ resolve_events d level in
    match libdeflate_alloc_gdeflate_compressor E lv with
    | None =>
        Returns EXR_ERR_OUT_OF_MEMORY
          (MkWorld (pre ++ [EvAlloc GdeflateCompressor (Some lv) None])
                   (cells σ) (outbuf σ))
    | Some comp =>
        let n := normalize_page_count page_count in
        let pages0 := init_out_pages w avail n page_size in
        let r := libdeflate_gdeflate_compress E comp inp in_bytes (outbuf σ)
                   pages0 n in
        let pages := rewrite_pages pages0 r.1.2 in
        let t := pre ++ [EvAlloc GdeflateCompressor (Some lv) (Some comp);
                         EvRun GdeflateCompressor comp pages0;
                         EvFree GdeflateCompressor comp] in
        if r.1.1 =? 0
        then Returns EXR_ERR_OUT_OF_MEMORY (MkWorld t (cells σ) r.2)
        else
          let c := cells_after_report actual_out r.1.1 (cells σ) in
          match compact_pages pages n r.2 with
          | Some buf' => Returns EXR_ERR_SUCCESS (MkWorld t c buf')
          | None => Undefined (MkWorld t c r.2)
          end
    end.
Proof.
  unfold exr_compress_buffer_gdeflate. unfold mbind at 1, M_bind at 1.
  rewrite resolve_level_run. unfold_codec. simpl.
  destruct (libdeflate_alloc_gdeflate_compressor E _) as [comp|]; simpl;
    [|reflexivity].
  destruct (libdeflate_gdeflate_compress E comp inp in_bytes (outbuf σ) _ _)
    as [[outsz answer] buf1]; simpl.
  destruct (outsz =? 0); simpl; rewrite <- ?app_assoc; simpl; [reflexivity|].
  destruct actual_out; simpl;
    destruct (compact_pages _ _ buf1); simpl; reflexivity.
Qed.

Lemma exr_uncompress_buffer_gdeflate_run E inp in_bytes avail actual_out σ :
  exr_uncompress_buffer_gdeflate E inp in_bytes avail actual_out σ
  = match libdeflate_alloc_gdeflate_decompressor E with
    | None =>
        Returns EXR_ERR_OUT_OF_MEMORY
          (MkWorld (trace σ ++ [EvAlloc GdeflateDecompressor None None])
                   (cells σ) (outbuf σ))
    | Some decomp =>
        match actual_out with
        | None =>
            Undefined
              (MkWorld (trace σ ++ [EvAlloc GdeflateDecompressor None (Some decomp)])
                       (cells σ) (outbuf σ))
        | Some l =>
            let '(res, produced, buf') :=
              libdeflate_gdeflate_decompress E decomp (InPage inp in_bytes) 1
                (outbuf σ) avail in
            Returns
              (if is_LIBDEFLATE_SUCCESS res
               then EXR_ERR_SUCCESS else EXR_ERR_CORRUPT_CHUNK)
              (MkWorld (trace σ ++ [EvAlloc GdeflateDecompressor None (Some decomp);
                                    EvRun GdeflateDecompressor decomp [];
                                    EvFree GdeflateDecompressor decomp])
                       (cells_after_engine actual_out produced
                          (<[l := avail]> (cells σ))) buf')
        end
    end.
Proof.
  unfold_codec. simpl.
  destruct (libdeflate_alloc_gdeflate_decompressor E) as [decomp|]; simpl;
    [|reflexivity].
  destruct actual_out as [l|]; simpl; [|reflexivity].
  destruct (libdeflate_gdeflate_decompress E decomp _ 1 (outbuf σ) avail)
    as [[res produced] buf']; simpl.
  destruct produced as [n|]; simpl;
    destruct (is_LIBDEFLATE_SUCCESS res); simpl;
    rewrite <- ?app_assoc; reflexivity.
Qed.

(** ** Page geometry *)

Lemma normalize_page_count_range w page_count :
  0 < w -> is_size_t w page_count ->
  1 <= normalize_page_count page_count <= SIZE_MAX w.
Proof.
  unfold normalize_page_count, is_size_t, SIZE_MAX. intros Hw H.
  assert (2 ^ 1 <= 2 ^ w) as Hp by (apply Z.pow_le_mono_r; lia).
  change (2 ^ 1) with 2 in Hp.
  destruct (Z.eqb_spec page_count 0); lia.
Qed.

Lemma init_out_pages_length w avail n page_size :
  1 <= n <= SIZE_MAX w ->
  length (init_out_pages w avail n page_size) = Z.to_nat n.
Proof.
  intros Hn. unfold init_out_pages.
  rewrite length_fmap, length_seqZ, subw_exact by (unfold is_size_t; lia).
  f_equal. lia.
Qed.

Lemma init_out_pages_lookup w avail n page_size i :
  1 <= n <= SIZE_MAX w -> 0 <= i < n ->
  init_out_pages w avail n page_size !! Z.to_nat i
  = Some (OutPage (mulw w i page_size)
            (if i <? n - 1 then page_size
             else subw w avail (mulw w (n - 1) page_size))).
Proof.
  intros Hn Hi. unfold init_out_pages.
  rewrite subw_exact by (unfold is_size_t; lia).
  rewrite list_lookup_fmap, lookup_seqZ_lt by lia.
  simpl. rewrite Z2Nat.id by lia. reflexivity.
Qed.

Lemma init_out_pages_one w avail page_size :
  0 < w -> is_size_t w avail ->
  init_out_pages w avail 1 page_size = [OutPage 0 avail].
Proof.
  intros Hw Ha. unfold init_out_pages.
  assert (Hmax : 1 <= SIZE_MAX w).
  { unfold SIZE_MAX. assert (2 ^ 1 <= 2 ^ w) by (apply Z.pow_le_mono_r; lia).
    change (2 ^ 1) with 2 in *. lia. }
  rewrite subw_exact by (unfold is_size_t; lia).
  change (1 - 1) with 0. change (seqZ 0 (0 + 1)) with [0].
  cbn [fmap list_fmap]. rewrite Z.ltb_irrefl.
  unfold mulw. rewrite Z.mul_0_l, wrap_small by lia.
  rewrite subw_exact by (unfold is_size_t in *; lia).
  rewrite Z.sub_0_r. reflexivity.
Qed.

(** With [(n - 1) * page_size <= avail] no product and no difference of
    the geometry wraps. *)
Lemma init_out_pages_lookup_exact w avail n page_size i :
  is_size_t w avail -> 0 <= page_size ->
  1 <= n <= SIZE_MAX w -> (n - 1) * page_size <= avail -> 0 <= i < n ->
  init_out_pages w avail n page_size !! Z.to_nat i
  = Some (OutPage (i * page_size)
            (if i <? n - 1 then page_size else avail - (n - 1) * page_size)).
Proof.
  intros Ha Hps Hn Hgeo Hi.
  rewrite init_out_pages_lookup by assumption.
  unfold mulw. unfold is_size_t in Ha.
  assert (0 <= i * page_size <= (n - 1) * page_size) by nia.
  rewrite !wrap_small by nia.
  rewrite subw_exact by (unfold is_size_t; nia). reflexivity.
Qed.

Lemma init_out_pages_last w avail n page_size :
  1 <= n <= SIZE_MAX w ->
  last (init_out_pages w avail n page_size)
  = Some (OutPage (mulw w (n - 1) page_size)
            (subw w avail (mulw w (n - 1) page_size))).
Proof.
  intros Hn. rewrite last_lookup, init_out_pages_length by assumption.
  replace (Init.Nat.pred (Z.to_nat n)) with (Z.to_nat (n - 1)) by lia.
  rewrite init_out_pages_lookup by lia.
  rewrite Z.ltb_irrefl. reflexivity.
Qed.

Lemma new_events_app {A} σ (o : outcome A) t :
  trace (world_of o) = trace σ ++ t -> new_events σ o = t.
Proof. unfold new_events. intros ->. apply drop_app_length. Qed.

(** ** The [int] counters of the two loops *)

(** While the counter stays within [int] the loop is the run over the
    indices. *)
Lemma for_int_in_range {St : Type} (body : St -> Z -> option St) turns :
  forall i st,
    turns = 0%nat \/ i + Z.of_nat turns <= INT_MAX ->
    for_int body turns i st = for_each body st (seqZ i (Z.of_nat turns)).
Proof.
  induction turns as [|turns IH]; intros i st Hrange; [reflexivity|].
  destruct Hrange as [Hz|Hrange]; [discriminate|].
  rewrite seqZ_cons by lia. cbn [for_int for_each].
  destruct (body st i) as [st'|]; [|reflexivity]. cbn [mbind option_bind].
  unfold int_succ. destruct (Z.ltb_spec i INT_MAX); [|lia].
  cbn [mbind option_bind].
  replace (Z.succ i) with (i + 1) by lia.
  replace (Z.pred (Z.of_nat (S turns))) with (Z.of_nat turns) by lia.
  apply IH. right. lia.
Qed.

(** A loop whose body is always defined stops being defined when its
    counter has to pass [INT_MAX]. *)
Lemma for_int_overflow {St : Type} (body : St -> Z -> option St) turns :
  (forall st i, is_Some (body st i)) ->
  forall i st,
    i <= INT_MAX -> INT_MAX < i + Z.of_nat turns ->
    for_int body turns i st = None.
Proof.
  intros Hbody. induction turns as [|turns IH]; intros i st Hi Hover; [lia|].
  cbn [for_int]. destruct (Hbody st i) as [st' ->]. cbn [mbind option_bind].
  unfold int_succ. destruct (Z.ltb_spec i INT_MAX); [|reflexivity].
  cbn [mbind option_bind]. apply IH; lia.
Qed.

Lemma for_each_collect (f : Z -> out_page) idx :
  forall out_pages,
    for_each (fun out_pages i => Some (out_pages ++ [f i])) out_pages idx
    = Some (out_pages ++ (f <$> idx)).
Proof.
  induction idx as [|i idx IH]; intros out_pages; simpl.
  - rewrite app_nil_r. reflexivity.
  - rewrite IH, <- app_assoc. reflexivity.
Qed.

(** Up to [INT_MAX] pages the loop of lines 176-181 builds the array
    [init_out_pages]. *)
Lemma init_out_pages_loop_defined w avail n page_size :
  1 <= n <= SIZE_MAX w -> n <= INT_MAX ->
  init_out_pages_loop w avail n page_size
  = Some (init_out_pages w avail n page_size).
Proof.
  intros Hn Hint. unfold init_out_pages_loop, init_out_pages.
  rewrite subw_exact by (unfold is_size_t; lia).
  rewrite for_int_in_range by (right; lia).
  rewrite Z2Nat.id by lia. apply for_each_collect.
Qed.

(** Beyond [INT_MAX] pages the counter of that loop overflows. *)
Lemma init_out_pages_loop_overflow w avail n page_size :
  1 <= n <= SIZE_MAX w -> INT_MAX < n ->
  init_out_pages_loop w avail n page_size = None.
Proof.
  intros Hn Hint. unfold init_out_pages_loop.
  rewrite subw_exact by (unfold is_size_t; lia).
  apply for_int_overflow; [eauto | unfold INT_MAX; lia | lia].
Qed.

(** Up to [INT_MAX] pages the loop of lines 194-198 is [compact_pages]. *)
Lemma compact_pages_loop_defined out_pages n buf :
  1 <= n <= INT_MAX ->
  compact_pages_loop out_pages n buf = compact_pages out_pages n buf.
Proof.
  intros Hn. unfold compact_pages_loop, compact_pages.
  destruct (out_pages !! 0%nat) as [p0|]; [|reflexivity].
  cbn [mbind option_bind].
  rewrite for_int_in_range by (right; lia).
  rewrite Z2Nat.id by lia. reflexivity.
Qed.

(** ** Compaction *)

Lemma total_nbytes_app l1 l2 :
  total_nbytes (l1 ++ l2) = total_nbytes l1 + total_nbytes l2.
Proof.
  unfold total_nbytes. induction l1 as [|p l1 IH]; simpl; [reflexivity|].
  rewrite IH. lia.
Qed.

Lemma total_nbytes_nonneg pages :
  Forall (fun p => 0 <= nbytes p) pages -> 0 <= total_nbytes pages.
Proof.
  unfold total_nbytes. induction 1; simpl; lia.
Qed.

(** Moving a block towards the start of the buffer: the block lands at
    [dest], what lies before [dest] and after the block's new end stays. *)
Lemma memmove_down buf dest src n :
  0 <= dest <= src -> 0 <= n -> src + n <= Z.of_nat (length buf) ->
  exists buf',
    memmove buf dest src n = Some buf'
    /\ length buf' = length buf
    /\ take (Z.to_nat (dest + n)) buf'
       = take (Z.to_nat dest) buf ++ take (Z.to_nat n) (drop (Z.to_nat src) buf)
    /\ drop (Z.to_nat (dest + n)) buf' = drop (Z.to_nat (dest + n)) buf.
Proof.
  intros Hd Hn Hs. unfold memmove.
  rewrite bool_decide_eq_true_2 by lia.
  eexists. split; [reflexivity|].
  set (A := take (Z.to_nat dest) buf).
  set (B := take (Z.to_nat n) (drop (Z.to_nat src) buf)).
  set (C := drop (Z.to_nat (dest + n)) buf).
  assert (HA : length A = Z.to_nat dest)
    by (subst A; rewrite length_take; lia).
  assert (HB : length B = Z.to_nat n)
    by (subst B; rewrite length_take, length_drop; lia).
  assert (HC : length C = (length buf - Z.to_nat (dest + n))%nat)
    by (subst C; apply length_drop).
  split; [|split].
  - rewrite !length_app. lia.
  - rewrite (app_assoc A B C). apply take_app_length'.
    rewrite length_app. lia.
  - rewrite (app_assoc A B C). apply drop_app_length'.
    rewrite length_app. lia.
Qed.

(** The loop of lines 194-198 from turn [i] on, [k] turns to go: the
    bytes before [dest] are the pages moved so far, the bytes from [dest]
    on are still as the engine left them. *)
Lemma compact_loop_spec page_size pages buf :
  0 <= page_size -> pages_fit page_size buf pages ->
  forall (k i : nat) dest b,
    (i + k = length pages)%nat ->
    dest = total_nbytes (take i pages) -> 0 <= dest ->
    (k <> 0%nat -> dest <= Z.of_nat i * page_size) ->
    length b = length buf ->
    take (Z.to_nat dest) b = concat (page_bytes buf <$> take i pages) ->
    drop (Z.to_nat dest) b = drop (Z.to_nat dest) buf ->
    exists b',
      for_each (compact_step pages) (dest, b) (seqZ (Z.of_nat i) (Z.of_nat k))
      = Some (total_nbytes pages, b')
      /\ length b' = length buf
      /\ take (Z.to_nat (total_nbytes pages)) b'
         = concat (page_bytes buf <$> pages)
      /\ drop (Z.to_nat (total_nbytes pages)) b'
         = drop (Z.to_nat (total_nbytes pages)) buf.
Proof.
  intros Hps Hfit. induction k as [|k IH]; intros i dest b Hik Hdest H0 Hle Hlen Htake Hdrop.
  - rewrite take_ge in Hdest, Htake by lia. subst dest.
    exists b. simpl. auto.
  - destruct (lookup_lt_is_Some_2 pages i ltac:(lia)) as [p Hp].
    destruct (Hfit i p Hp) as (Hdata & Hnb & Hend & Hslot).
    specialize (Hle ltac:(lia)).
    destruct (memmove_down b dest (data p) (nbytes p)) as (b1 & Hmv & Hlen1 & Htake1 & Hdrop1);
      [lia | lia | lia |].
    assert (Hstep : compact_step pages (dest, b) (Z.of_nat i)
                    = Some (dest + nbytes p, b1)).
    { unfold compact_step. simpl. rewrite Nat2Z.id, Hp. simpl.
      rewrite Hmv. reflexivity. }
    rewrite seqZ_cons by lia. cbn [for_each]. rewrite Hstep.
    cbn [mbind option_bind].
    replace (Z.succ (Z.of_nat i)) with (Z.of_nat (S i)) by lia.
    replace (Z.pred (Z.of_nat (S k))) with (Z.of_nat k) by lia.
    assert (Hsrc : drop (Z.to_nat (data p)) b = drop (Z.to_nat (data p)) buf).
    { replace (Z.to_nat (data p))
        with (Z.to_nat dest + (Z.to_nat (data p) - Z.to_nat dest))%nat by lia.
      rewrite <- !drop_drop, Hdrop. reflexivity. }
    apply IH.
    + lia.
    + rewrite (take_S_r _ _ _ Hp), total_nbytes_app, <- Hdest.
      unfold total_nbytes. simpl. lia.
    + lia.
    + intros Hk. specialize (Hslot ltac:(lia)). lia.
    + lia.
    + rewrite Htake1, Htake, Hsrc, (take_S_r _ _ _ Hp), fmap_app, concat_app.
      simpl. rewrite app_nil_r. reflexivity.
    + rewrite Hdrop1.
      replace (Z.to_nat (dest + nbytes p))
        with (Z.to_nat dest + Z.to_nat (nbytes p))%nat by lia.
      rewrite <- !drop_drop, Hdrop. reflexivity.
Qed.

(** Compaction of pages that fit: defined, length-preserving, and the
    buffer then starts with the pages' bytes one after the other. *)
Lemma compact_pages_spec page_size pages buf :
  0 <= page_size -> pages <> [] -> pages_fit page_size buf pages ->
  exists buf',
    compact_pages pages (Z.of_nat (length pages)) buf = Some buf'
    /\ length buf' = length buf
    /\ take (Z.to_nat (total_nbytes pages)) buf'
       = concat (page_bytes buf <$> pages)
    /\ drop (Z.to_nat (total_nbytes pages)) buf'
       = drop (Z.to_nat (total_nbytes pages)) buf.
Proof.
  intros Hps Hne Hfit. destruct pages as [|p0 rest] eqn:Hpages; [done|].
  rewrite <- Hpages in *.
  assert (Hp0 : pages !! 0%nat = Some p0) by (subst pages; reflexivity).
  destruct (Hfit 0%nat p0 Hp0) as (Hdata & Hnb & Hend & Hslot).
  assert (Htake1 : take 1 pages = [p0]) by (subst pages; reflexivity).
  destruct (compact_loop_spec page_size pages buf Hps Hfit
              (length pages - 1) 1 (data p0 + nbytes p0) buf)
    as (b' & Hrun & Hrest).
  - subst pages. simpl. lia.
  - rewrite Htake1. unfold total_nbytes. simpl. lia.
  - lia.
  - intros Hk. specialize (Hslot ltac:(lia)). lia.
  - reflexivity.
  - rewrite Htake1. simpl. rewrite app_nil_r. unfold page_bytes.
    rewrite Hdata. simpl. replace (data p0 + nbytes p0) with (nbytes p0) by lia.
    reflexivity.
  - reflexivity.
  - exists b'. split; [|exact Hrest].
    unfold compact_pages. rewrite Hp0. simpl.
    replace (Z.of_nat (length pages) - 1) with (Z.of_nat (length pages - 1))
      by (subst pages; simpl; lia).
    change 1 with (Z.of_nat 1) at 1. rewrite Hrun. reflexivity.
Qed.

(** With one page the loop has no turn: the buffer stays as it is. *)
Lemma compact_pages_single pages buf :
  pages <> [] -> compact_pages pages 1 buf = Some buf.
Proof.
  destruct pages as [|p0 rest]; [done|]. intros _. reflexivity.
Qed.

Lemma rewrite_pages_length out_pages answer :
  length (rewrite_pages out_pages answer) = length out_pages.
Proof. apply length_imap. Qed.

Lemma pages_fit_of_geometry w avail n page_size pages buf :
  is_size_t w avail -> 0 <= page_size ->
  1 <= n <= SIZE_MAX w -> (n - 1) * page_size <= avail ->
  avail <= Z.of_nat (length buf) ->
  engine_respects_pages (init_out_pages w avail n page_size) pages ->
  pages_fit page_size buf pages.
Proof.
  intros Ha Hps Hn Hgeo Hbuf Hresp i p Hp.
  pose proof (Forall2_length _ _ _ Hresp) as Hlen.
  rewrite init_out_pages_length in Hlen by assumption.
  pose proof (lookup_lt_Some _ _ _ Hp) as Hi.
  pose proof (init_out_pages_lookup_exact w avail n page_size (Z.of_nat i)
                Ha Hps Hn Hgeo ltac:(lia)) as Hp0.
  rewrite Nat2Z.id in Hp0.
  destruct (Forall2_lookup_lr _ _ _ _ _ _ Hresp Hp0 Hp) as [Hd Hnb].
  simpl in Hd, Hnb.
  destruct (Z.ltb_spec (Z.of_nat i) (n - 1)).
  - assert (Z.of_nat i * page_size + page_size <= (n - 1) * page_size) by nia.
    repeat split; lia.
  - assert (Hlast : Z.of_nat i = n - 1) by lia.
    rewrite Hlast in *. repeat split; lia.
Qed.

(** C5.  For page counts the [int] counters of the two loops can
    count ([INT_MAX] at most): after the engine returned a non-zero size,
    and provided the page slots lie inside the output buffer and the
    engine kept to them, the call returns Success with the output buffer
    starting with the bytes of page 0, then those of page 1, and so on
    without gaps; the length stored through [actual_out] is the engine's
    total, the sum of the pages' lengths.  With a single page the buffer
    is left exactly as the engine wrote it.  Both loops are defined, and
    the buffer is the one the compaction loop leaves. *)
Theorem gdeflate_compaction_contiguous
    w E d level inp in_bytes avail page_count page_size actual_out σ comp :
  0 < w -> is_size_t w avail -> is_size_t w page_count -> is_size_t w page_size ->
  libdeflate_alloc_gdeflate_compressor E (level_after_resolve d level) = Some comp ->
  let n := normalize_page_count page_count in
  let pages0 := init_out_pages w avail n page_size in
  let r := libdeflate_gdeflate_compress E comp inp in_bytes (outbuf σ) pages0 n in
  let pages := rewrite_pages pages0 r.1.2 in
  n <= INT_MAX ->
  r.1.1 <> 0 ->
  init_out_pages_loop w avail n page_size = Some pages0
  /\ ((n - 1) * page_size <= avail ->
      avail <= Z.of_nat (length r.2) ->
      engine_respects_pages pages0 pages ->
      r.1.1 = total_nbytes pages ->
      exists σ',
        exr_compress_buffer_gdeflate w E d level inp in_bytes avail
          page_count page_size actual_out σ = Returns EXR_ERR_SUCCESS σ'
        /\ compact_pages_loop pages n r.2 = Some (outbuf σ')
        /\ length (outbuf σ') = length r.2
        /\ take (Z.to_nat (total_nbytes pages)) (outbuf σ')
           = concat (page_bytes r.2 <$> pages)
        /\ cells σ' = cells_after_report actual_out (total_nbytes pages) (cells σ))
  /\ (n = 1 ->
      exists σ',
        exr_compress_buffer_gdeflate w E d level inp in_bytes avail
          page_count page_size actual_out σ = Returns EXR_ERR_SUCCESS σ'
        /\ compact_pages_loop pages n r.2 = Some (outbuf σ')
        /\ outbuf σ' = r.2).
Proof.
  intros Hw Ha Hpc Hps Halloc n pages0 r pages Hint Hnz.
  pose proof (normalize_page_count_range w page_count Hw Hpc) as Hn.
  fold n in Hn.
  assert (Hlen : length pages = Z.to_nat n).
  { unfold pages. rewrite rewrite_pages_length.
    apply init_out_pages_length; assumption. }
  assert (Hne : pages <> []).
  { intros Hnil. rewrite Hnil in Hlen. simpl in Hlen. lia. }
  split; [apply init_out_pages_loop_defined; assumption|].
  rewrite exr_compress_buffer_gdeflate_run. cbv zeta. rewrite Halloc.
  fold n. fold pages0. fold r. fold pages.
  rewrite compact_pages_loop_defined by lia.
  destruct (Z.eqb_spec r.1.1 0) as [|_]; [contradiction|].
  split.
  - intros Hgeo Hbuf Hresp Htotal.
    destruct Hps as [Hps0 _].
    pose proof (pages_fit_of_geometry w avail n page_size pages r.2
                  Ha Hps0 Hn Hgeo Hbuf Hresp) as Hfit.
    destruct (compact_pages_spec page_size pages r.2 Hps0 Hne Hfit)
      as (buf' & Hrun & Hlen' & Htake & _).
    rewrite Hlen, Z2Nat.id in Hrun by lia.
    rewrite Hrun. eexists. split; [reflexivity|]. simpl.
    rewrite Htotal. auto.
  - intros H1. rewrite H1, compact_pages_single by assumption.
    eexists. split; [reflexivity|]. split; reflexivity.
Qed.

(** Six bytes in three pages of four: the engine leaves
    [ab__cd__ef__], the call returns [abcdef] in front and reports 6. *)
Lemma gdeflate_compaction_contiguous_witness :
  exists σ',
    exr_compress_buffer_gdeflate 64 (Toy.engine (Some 1%nat) 0) (-1) (-1)
      Toy.abcdef 6 12 3 4 (Some 7%nat) (Toy.fresh 12)
    = Returns EXR_ERR_SUCCESS σ'
    /\ take 6 (outbuf σ') = Toy.abcdef
    /\ cells σ' !! 7%nat = Some 6.
Proof.
  destruct (gdeflate_compaction_contiguous 64 (Toy.engine (Some 1%nat) 0)
              (-1) (-1) Toy.abcdef 6 12 3 4 (Some 7%nat) (Toy.fresh 12) 1%nat)
    as (_ & Hmany & _).
  - reflexivity.
  - vm_compute; split; congruence.
  - vm_compute; split; congruence.
  - vm_compute; split; congruence.
  - reflexivity.
  - vm_compute; congruence.
  - vm_compute; congruence.
  - destruct Hmany as (σ' & Hrun & _ & _ & Htake & Hcells).
    + vm_compute; congruence.
    + vm_compute; congruence.
    + unfold engine_respects_pages.
      apply (bool_decide_unpack _). vm_compute. exact I.
    + reflexivity.
    + exists σ'. split; [exact Hrun|]. split.
      * exact Htake.
      * rewrite Hcells. reflexivity.
Defined.

(** ** The events of each operation *)

Lemma exr_compress_buffer_events E d level inp in_bytes avail actual_out σ :
  let lv := level_after_resolve d level in
  let o := exr_compress_buffer E d level inp in_bytes avail actual_out σ in
  trace (world_of o) = trace σ ++ new_events σ o
  /\ new_events σ o
     = resolve_events d level
       ++ match libdeflate_alloc_compressor E lv with
          | Some comp => bracket Compressor (Some lv) comp []
          | None => [EvAlloc Compressor (Some lv) None]
          end.
Proof.
  cbv zeta. rewrite exr_compress_buffer_run. cbv zeta.
  match goal with |- ?P /\ new_events _ ?o = ?t =>
    assert (H : trace (world_of o) = trace σ ++ t) end.
  { destruct (libdeflate_alloc_compressor E _) as [comp|]; simpl.
    - destruct (_ =? 0); simpl; rewrite <- app_assoc; reflexivity.
    - rewrite <- app_assoc; reflexivity. }
  rewrite (new_events_app _ _ _ H). auto.
Qed.

Lemma exr_uncompress_buffer_events E inp in_bytes avail actual_out σ :
  let o := exr_uncompress_buffer E inp in_bytes avail actual_out σ in
  trace (world_of o) = trace σ ++ new_events σ o
  /\ new_events σ o
     = match libdeflate_alloc_decompressor E with
       | Some decomp => bracket Decompressor None decomp []
       | None => [EvAlloc Decompressor None None]
       end.
Proof.
  cbv zeta. rewrite exr_uncompress_buffer_run.
  match goal with |- ?P /\ new_events _ ?o = ?t =>
    assert (H : trace (world_of o) = trace σ ++ t) end.
  { destruct (libdeflate_alloc_decompressor E) as [decomp|]; simpl; [|reflexivity].
    destruct (libdeflate_zlib_decompress_ex E decomp inp in_bytes (outbuf σ) avail _)
      as [[[res actual_in] produced] buf']; reflexivity. }
  rewrite (new_events_app _ _ _ H). auto.
Qed.

Lemma exr_compress_buffer_gdeflate_events
    w E d level inp in_bytes avail page_count page_size actual_out σ :
  let lv := level_after_resolve d level in
  let o := exr_compress_buffer_gdeflate w E d level inp in_bytes avail
             page_count page_size actual_out σ in
  trace (world_of o) = trace σ ++ new_events σ o
  /\ new_events σ o
     = resolve_events d level
       ++ match libdeflate_alloc_gdeflate_compressor E lv with
          | Some comp =>
              bracket GdeflateCompressor (Some lv) comp
                (init_out_pages w avail (normalize_page_count page_count) page_size)
          | None => [EvAlloc GdeflateCompressor (Some lv) None]
          end.
Proof.
  cbv zeta. rewrite exr_compress_buffer_gdeflate_run. cbv zeta.
  match goal with |- ?P /\ new_events _ ?o = ?t =>
    assert (H : trace (world_of o) = trace σ ++ t) end.
  { destruct (libdeflate_alloc_gdeflate_compressor E _) as [comp|]; simpl.
    - destruct (_ =? 0); simpl; [rewrite <- app_assoc; reflexivity|].
      destruct (compact_pages _ _ _); simpl; rewrite <- app_assoc; reflexivity.
    - rewrite <- app_assoc; reflexivity. }
  rewrite (new_events_app _ _ _ H). auto.
Qed.

Lemma exr_uncompress_buffer_gdeflate_events E inp in_bytes avail actual_out σ :
  let o := exr_uncompress_buffer_gdeflate E inp in_bytes avail actual_out σ in
  trace (world_of o) = trace σ ++ new_events σ o
  /\ new_events σ o
     = match libdeflate_alloc_gdeflate_decompressor E with
       | Some decomp =>
           if bool_decide (is_Some actual_out)
           then bracket GdeflateDecompressor None decomp []
           else [EvAlloc GdeflateDecompressor None (Some decomp)]
       | None => [EvAlloc GdeflateDecompressor None None]
       end.
Proof.
  cbv zeta. rewrite exr_uncompress_buffer_gdeflate_run.
  match goal with |- ?P /\ new_events _ ?o = ?t =>
    assert (H : trace (world_of o) = trace σ ++ t) end.
  { destruct (libdeflate_alloc_gdeflate_decompressor E) as [decomp|]; simpl;
      [|reflexivity].
    destruct actual_out as [l|]; simpl; [|reflexivity].
    destruct (libdeflate_gdeflate_decompress E decomp _ 1 (outbuf σ) avail)
      as [[res produced] buf']; reflexivity. }
  rewrite (new_events_app _ _ _ H). auto.
Qed.

Lemma pages_handed_over_bracket d level lv comp pages :
  pages_handed_over
    (resolve_events d level ++ bracket GdeflateCompressor lv comp pages)
  = Some pages.
Proof. unfold resolve_events. destruct (level <? 0); reflexivity. Qed.

Lemma gdeflate_hands_over_init_pages
    w E d level inp in_bytes avail page_count page_size actual_out σ comp :
  libdeflate_alloc_gdeflate_compressor E (level_after_resolve d level) = Some comp ->
  pages_handed_over
    (new_events σ (exr_compress_buffer_gdeflate w E d level inp in_bytes avail
                     page_count page_size actual_out σ))
  = Some (init_out_pages w avail (normalize_page_count page_count) page_size).
Proof.
  intros Halloc.
  destruct (exr_compress_buffer_gdeflate_events w E d level inp in_bytes avail
              page_count page_size actual_out σ) as [_ ->].
  rewrite Halloc. apply pages_handed_over_bracket.
Qed.

(** C4.  In [exr_compress_buffer_gdeflate] a page count of zero stands for
    one page of the whole output, and for page counts the [int] counter of
    line 176 can count ([INT_MAX] at most) the loop is defined and the
    descriptors it builds, the ones handed to the engine, are: for every
    [i] below the page count, data pointer [out + i * page_size], capacity
    [page_size] for every page but the last and
    [out_bytes_avail - (page_count - 1) * page_size] for the last (in
    [size_t] arithmetic; exact whenever the pages fit the output). *)
Theorem out_pages_geometry
    w E d level inp in_bytes avail page_count page_size actual_out σ comp :
  0 < w -> is_size_t w avail -> is_size_t w page_count -> is_size_t w page_size ->
  libdeflate_alloc_gdeflate_compressor E (level_after_resolve d level) = Some comp ->
  let n := normalize_page_count page_count in
  let pages := init_out_pages w avail n page_size in
  n <= INT_MAX ->
  (page_count = 0 -> n = 1 /\ pages = [OutPage 0 avail])
  /\ (page_count <> 0 -> n = page_count)
  /\ init_out_pages_loop w avail n page_size = Some pages
  /\ pages_handed_over
       (new_events σ (exr_compress_buffer_gdeflate w E d level inp in_bytes
                        avail page_count page_size actual_out σ))
     = Some pages
  /\ Z.of_nat (length pages) = n
  /\ (forall i, 0 <= i < n ->
        pages !! Z.to_nat i
        = Some (OutPage (mulw w i page_size)
                  (if i <? n - 1 then page_size
                   else subw w avail (mulw w (n - 1) page_size))))
  /\ ((n - 1) * page_size <= avail ->
      forall i, 0 <= i < n ->
        pages !! Z.to_nat i
        = Some (OutPage (i * page_size)
                  (if i <? n - 1 then page_size
                   else avail - (n - 1) * page_size))).
Proof.
  intros Hw Ha Hpc Hps Halloc n pages Hint.
  pose proof (normalize_page_count_range w page_count Hw Hpc) as Hn.
  fold n in Hn.
  split; [|split; [|split; [|split; [|split; [|split]]]]].
  - intros ->. split; [reflexivity|].
    subst pages n. apply init_out_pages_one; assumption.
  - intros Hnz. subst n. unfold normalize_page_count.
    destruct (Z.eqb_spec page_count 0); [contradiction|reflexivity].
  - apply init_out_pages_loop_defined; assumption.
  - eapply gdeflate_hands_over_init_pages; eassumption.
  - subst pages. rewrite init_out_pages_length by assumption. lia.
  - intros i Hi. apply init_out_pages_lookup; assumption.
  - intros Hgeo i Hi. destruct Hps as [Hps0 _].
    apply init_out_pages_lookup_exact; assumption.
Qed.

(** A 14-byte output in three pages of four, then a 12-byte output with a
    page count of zero. *)
Lemma out_pages_geometry_witness :
  (init_out_pages_loop 64 14 (normalize_page_count 3) 4
     = Some (init_out_pages 64 14 (normalize_page_count 3) 4)
   /\ init_out_pages 64 14 (normalize_page_count 3) 4 !! Z.to_nat 1
      = Some (OutPage (1 * 4) 4)
   /\ init_out_pages 64 14 (normalize_page_count 3) 4 !! Z.to_nat 2
      = Some (OutPage (2 * 4) (14 - (3 - 1) * 4)))
  /\ pages_handed_over
       (new_events (Toy.fresh 12)
          (exr_compress_buffer_gdeflate 64 (Toy.engine (Some 1%nat) 0) (-1) 2
             Toy.abcdef 6 12 0 4 None (Toy.fresh 12)))
     = Some [OutPage 0 12].
Proof.
  split.
  - destruct (out_pages_geometry 64 (Toy.engine (Some 1%nat) 0) (-1) 2
                Toy.abcdef 6 14 3 4 None (Toy.fresh 14) 1%nat)
      as (_ & _ & Hloop & _ & _ & _ & Hexact).
    + reflexivity.
    + vm_compute; split; congruence.
    + vm_compute; split; congruence.
    + vm_compute; split; congruence.
    + reflexivity.
    + vm_compute; congruence.
    + split; [exact Hloop|].
      assert (Hgeo : (normalize_page_count 3 - 1) * 4 <= 14)
        by (vm_compute; congruence).
      split.
      * apply (Hexact Hgeo 1). vm_compute. split; congruence.
      * apply (Hexact Hgeo 2). vm_compute. split; congruence.
  - destruct (out_pages_geometry 64 (Toy.engine (Some 1%nat) 0) (-1) 2
                Toy.abcdef 6 12 0 4 None (Toy.fresh 12) 1%nat)
      as (Hzero & _ & _ & Hpages & _).
    + reflexivity.
    + vm_compute; split; congruence.
    + vm_compute; split; congruence.
    + vm_compute; split; congruence.
    + reflexivity.
    + vm_compute; congruence.
    + destruct (Hzero eq_refl) as [_ Hone]. rewrite Hpages, Hone. reflexivity.
Defined.

(** C10.  Nothing checks the capacity of the last page: for page counts
    the [int] counter of line 176 can count ([INT_MAX] at most), when
    [out_bytes_avail] is below [(page_count - 1) * page_size] (as [size_t]
    values) the subtraction wraps, and the descriptor of the last page is
    built and goes to the engine with the capacity
    [out_bytes_avail - (page_count - 1) * page_size + 2^w], which is more
    than the whole output buffer holds. *)
Theorem last_page_capacity_wraps
    w E d level inp in_bytes avail page_count page_size actual_out σ comp :
  0 < w -> is_size_t w avail -> is_size_t w page_count -> is_size_t w page_size ->
  libdeflate_alloc_gdeflate_compressor E (level_after_resolve d level) = Some comp ->
  let n := normalize_page_count page_count in
  n <= INT_MAX ->
  avail < mulw w (n - 1) page_size ->
  exists pages,
    init_out_pages_loop w avail n page_size = Some pages
    /\ pages_handed_over
         (new_events σ (exr_compress_buffer_gdeflate w E d level inp in_bytes
                          avail page_count page_size actual_out σ))
       = Some pages
    /\ last pages
       = Some (OutPage (mulw w (n - 1) page_size)
                 (avail - mulw w (n - 1) page_size + 2 ^ w))
    /\ subw w avail (mulw w (n - 1) page_size)
       = avail - mulw w (n - 1) page_size + 2 ^ w
    /\ avail < avail - mulw w (n - 1) page_size + 2 ^ w <= SIZE_MAX w
    /\ ((n - 1) * page_size <= SIZE_MAX w ->
        mulw w (n - 1) page_size = (n - 1) * page_size).
Proof.
  intros Hw Ha Hpc Hps Halloc n Hint Hlt.
  pose proof (normalize_page_count_range w page_count Hw Hpc) as Hn.
  fold n in Hn.
  pose proof (wrap_range w ((n - 1) * page_size) ltac:(lia)) as HP.
  fold (mulw w (n - 1) page_size) in HP.
  pose proof (subw_borrow w avail _ ltac:(lia) Ha HP Hlt) as Hsub.
  exists (init_out_pages w avail n page_size).
  split; [apply init_out_pages_loop_defined; assumption|].
  split; [eapply gdeflate_hands_over_init_pages; eassumption|].
  split; [rewrite init_out_pages_last, Hsub by assumption; reflexivity|].
  split; [exact Hsub|].
  unfold is_size_t, SIZE_MAX in *. split; [lia|].
  intros Hfit. unfold mulw. apply wrap_small.
  destruct Hps as [Hps0 _]. unfold SIZE_MAX. nia.
Qed.

(** Three pages of four bytes over an output of four bytes: the last page
    is announced with [2^64 - 4] bytes. *)
Lemma last_page_capacity_wraps_witness :
  exists pages,
    pages_handed_over
      (new_events (Toy.fresh 4)
         (exr_compress_buffer_gdeflate 64 (Toy.engine (Some 1%nat) 0) (-1) 2
            Toy.abcdef 6 4 3 4 None (Toy.fresh 4)))
    = Some pages
    /\ last pages = Some (OutPage 8 (2 ^ 64 - 4)).
Proof.
  destruct (last_page_capacity_wraps 64 (Toy.engine (Some 1%nat) 0) (-1) 2
              Toy.abcdef 6 4 3 4 None (Toy.fresh 4) 1%nat)
    as (pages & _ & Hpages & Hlast & _).
  - reflexivity.
  - vm_compute; split; congruence.
  - vm_compute; split; congruence.
  - vm_compute; split; congruence.
  - reflexivity.
  - vm_compute; congruence.
  - reflexivity.
  - exists pages. split; [exact Hpages|]. rewrite Hlast. reflexivity.
Defined.

(** ** Level resolution *)

Lemma level_after_resolve_spec d level :
  level_after_resolve d level = spec_resolve_level d level.
Proof.
  unfold level_after_resolve, spec_resolve_level.
  destruct (Z.ltb_spec level 0), (Z.leb_spec 0 level),
    (Z.ltb_spec d 0), (Z.leb_spec 0 d); try lia; reflexivity.
Qed.

Lemma allocated_level_resolve_events d level lv k ret rest :
  allocated_level (resolve_events d level ++ EvAlloc k lv ret :: rest) = lv.
Proof. unfold resolve_events. destruct (level <? 0); reflexivity. Qed.

Lemma consults_default_resolve_events d level lv k ret mid :
  consults_default
    (resolve_events d level
     ++ match ret with
        | Some ctx => bracket k lv ctx mid
        | None => [EvAlloc k lv None]
        end)
  = (level <? 0).
Proof.
  unfold resolve_events. destruct (level <? 0), ret; reflexivity.
Qed.

(** C6.  Both compressors hand the allocator the level the specification's
    [resolve_level] names: the requested level unchanged when it is not
    negative, and then the configured default is not read; otherwise the
    configured default; otherwise, when that is negative too, the built-in
    default 4. *)
Theorem level_resolution
    w E d level inp in_bytes avail page_count page_size actual_out σ :
  let single := exr_compress_buffer E d level inp in_bytes avail actual_out σ in
  let paged := exr_compress_buffer_gdeflate w E d level inp in_bytes avail
                 page_count page_size actual_out σ in
  allocated_level (new_events σ single) = Some (spec_resolve_level d level)
  /\ allocated_level (new_events σ paged) = Some (spec_resolve_level d level)
  /\ consults_default (new_events σ single) = (level <? 0)
  /\ consults_default (new_events σ paged) = (level <? 0)
  /\ (0 <= level -> spec_resolve_level d level = level)
  /\ (level < 0 -> 0 <= d -> spec_resolve_level d level = d)
  /\ (level < 0 -> d < 0 ->
      spec_resolve_level d level = EXR_DEFAULT_ZLIB_COMPRESS_LEVEL).
Proof.
  cbv zeta.
  destruct (exr_compress_buffer_events E d level inp in_bytes avail actual_out σ)
    as [_ ->].
  destruct (exr_compress_buffer_gdeflate_events w E d level inp in_bytes avail
              page_count page_size actual_out σ) as [_ ->].
  rewrite !consults_default_resolve_events.
  rewrite <- level_after_resolve_spec.
  repeat split.
  - destruct (libdeflate_alloc_compressor E _);
      apply allocated_level_resolve_events.
  - destruct (libdeflate_alloc_gdeflate_compressor E _);
      apply allocated_level_resolve_events.
  - intros H. unfold level_after_resolve.
    destruct (Z.ltb_spec level 0); [lia|reflexivity].
  - intros H Hd. unfold level_after_resolve.
    destruct (Z.ltb_spec level 0); [|lia].
    destruct (Z.ltb_spec d 0); [lia|reflexivity].
  - intros H Hd. unfold level_after_resolve.
    destruct (Z.ltb_spec level 0); [|lia].
    destruct (Z.ltb_spec d 0); [reflexivity|lia].
Qed.

(** A requested level of -1 with the default configured to 7, then with
    the default unset. *)
Lemma level_resolution_witness :
  spec_resolve_level 7 (-1) = 7
  /\ spec_resolve_level (-1) (-1) = EXR_DEFAULT_ZLIB_COMPRESS_LEVEL
  /\ allocated_level
       (new_events (Toy.fresh 12)
          (exr_compress_buffer (Toy.engine (Some 1%nat) 0) 7 (-1)
             Toy.abcdef 6 12 None (Toy.fresh 12)))
     = Some 7.
Proof.
  destruct (level_resolution 64 (Toy.engine (Some 1%nat) 0) 7 (-1)
              Toy.abcdef 6 12 3 4 None (Toy.fresh 12))
    as (Hsingle & _ & _ & _ & _ & Hconf & _).
  destruct (level_resolution 64 (Toy.engine (Some 1%nat) 0) (-1) (-1)
              Toy.abcdef 6 12 3 4 None (Toy.fresh 12))
    as (_ & _ & _ & _ & _ & _ & Hunset).
  split; [apply Hconf; lia|].
  split; [apply Hunset; lia|].
  rewrite Hsingle, Hconf by lia. reflexivity.
Defined.

(** ** Result codes *)



(** C3.  [exr_uncompress_buffer] returns Success exactly when a
    decompressor was allocated, the engine answered LIBDEFLATE_SUCCESS and
    the count of input bytes it consumed is [in_bytes]; an engine success
    with any other count, such as a stream followed by unread bytes, makes
    the call return CorruptData. *)
Theorem uncompress_success_iff E inp in_bytes avail actual_out σ :
  let o := exr_uncompress_buffer E inp in_bytes avail actual_out σ in
  let answer decomp :=
    libdeflate_zlib_decompress_ex E decomp inp in_bytes (outbuf σ) avail
      (bool_decide (is_Some actual_out)) in
  (result_of o = Some EXR_ERR_SUCCESS <->
   exists decomp,
     libdeflate_alloc_decompressor E = Some decomp
     /\ (answer decomp).1.1.1 = LIBDEFLATE_SUCCESS
     /\ (answer decomp).1.1.2 = in_bytes)
  /\ (forall decomp,
        libdeflate_alloc_decompressor E = Some decomp ->
        (answer decomp).1.1.1 = LIBDEFLATE_SUCCESS ->
        (answer decomp).1.1.2 <> in_bytes ->
        result_of o = Some EXR_ERR_CORRUPT_CHUNK)
  /\ (forall decomp,
        libdeflate_alloc_decompressor E = Some decomp ->
        (answer decomp).1.1.1 <> LIBDEFLATE_SUCCESS ->
        result_of o = Some EXR_ERR_CORRUPT_CHUNK).
Proof.
  cbv zeta. rewrite exr_uncompress_buffer_run.
  destruct (libdeflate_alloc_decompressor E) as [decomp|].
  - destruct (libdeflate_zlib_decompress_ex E decomp inp in_bytes (outbuf σ) avail _)
      as [[[res actual_in] produced] buf'] eqn:Hans.
    simpl. split; [split|split].
    + intros Hres. exists decomp. rewrite Hans. simpl.
      destruct res; simpl in Hres; try discriminate.
      destruct (Z.eqb_spec in_bytes actual_in); [auto|discriminate].
    + intros (decomp' & Heq & Hres & Hin). inversion Heq; subst decomp'.
      rewrite Hans in Hres, Hin. simpl in Hres, Hin. subst res actual_in.
      simpl. rewrite Z.eqb_refl. reflexivity.
    + intros decomp' Heq Hres Hin. inversion Heq; subst decomp'.
      rewrite Hans in Hres, Hin. simpl in Hres, Hin. subst res. simpl.
      destruct (Z.eqb_spec in_bytes actual_in); [congruence|reflexivity].
    + intros decomp' Heq Hres. inversion Heq; subst decomp'.
      rewrite Hans in Hres. simpl in Hres.
      destruct res; simpl; congruence.
  - simpl. split; [split|split].
    + discriminate.
    + intros (decomp & Heq & _). discriminate.
    + intros decomp Heq. discriminate.
    + intros decomp Heq. discriminate.
Qed.

(** A stream of four bytes followed by two unread bytes: the engine
    succeeds having consumed four of six and the call answers CorruptData;
    without the two bytes it answers Success. *)
Lemma uncompress_success_iff_witness :
  result_of (exr_uncompress_buffer (Toy.engine (Some 1%nat) 2)
               Toy.abcdef 6 12 None (Toy.fresh 12))
  = Some EXR_ERR_CORRUPT_CHUNK
  /\ result_of (exr_uncompress_buffer (Toy.engine (Some 1%nat) 0)
                  Toy.abcdef 6 12 None (Toy.fresh 12))
     = Some EXR_ERR_SUCCESS.
Proof.
  destruct (uncompress_success_iff (Toy.engine (Some 1%nat) 2)
              Toy.abcdef 6 12 None (Toy.fresh 12)) as (_ & Htrail & _).
  destruct (uncompress_success_iff (Toy.engine (Some 1%nat) 0)
              Toy.abcdef 6 12 None (Toy.fresh 12)) as (Hiff & _).
  split.
  - apply (Htrail 1%nat); [reflexivity | reflexivity | vm_compute; congruence].
  - apply Hiff. exists 1%nat. repeat split; reflexivity.
Defined.

(** ** The optional [actual_out] *)

(** Both compressors guard the store with [if (actual_out)]: a null
    pointer changes neither the result nor the output buffer, and no cell
    of the caller is written. *)
Lemma exr_compress_buffer_null_actual_out E d level inp in_bytes avail l σ :
  let absent := exr_compress_buffer E d level inp in_bytes avail None σ in
  let supplied := exr_compress_buffer E d level inp in_bytes avail (Some l) σ in
  result_of absent = result_of supplied
  /\ outbuf (world_of absent) = outbuf (world_of supplied)
  /\ cells (world_of absent) = cells σ.
Proof.
  cbv zeta. rewrite !exr_compress_buffer_run. cbv zeta.
  destruct (libdeflate_alloc_compressor E _) as [comp|]; simpl; [|auto].
  destruct (_ =? 0); simpl; auto.
Qed.

Lemma exr_compress_buffer_gdeflate_null_actual_out
    w E d level inp in_bytes avail page_count page_size l σ :
  let absent := exr_compress_buffer_gdeflate w E d level inp in_bytes avail
                  page_count page_size None σ in
  let supplied := exr_compress_buffer_gdeflate w E d level inp in_bytes avail
                    page_count page_size (Some l) σ in
  result_of absent = result_of supplied
  /\ outbuf (world_of absent) = outbuf (world_of supplied)
  /\ cells (world_of absent) = cells σ.
Proof.
  cbv zeta. rewrite !exr_compress_buffer_gdeflate_run. cbv zeta.
  destruct (libdeflate_alloc_gdeflate_compressor E _) as [comp|]; simpl; [|auto].
  destruct (_ =? 0); simpl; [auto|].
  destruct (compact_pages _ _ _); simpl; auto.
Qed.

(** [exr_uncompress_buffer] never stores through [actual_out] itself; it
    passes the pointer on, and with a null pointer no cell is written. *)
Lemma exr_uncompress_buffer_null_actual_out E inp in_bytes avail σ :
  cells (world_of (exr_uncompress_buffer E inp in_bytes avail None σ)) = cells σ.
Proof.
  rewrite exr_uncompress_buffer_run.
  destruct (libdeflate_alloc_decompressor E) as [decomp|]; simpl; [|reflexivity].
  destruct (libdeflate_zlib_decompress_ex E decomp inp in_bytes (outbuf σ) avail _)
    as [[[res actual_in] produced] buf']; reflexivity.
Qed.

(** C8.  [exr_uncompress_buffer_gdeflate] stores [out_bytes_avail] through
    [actual_out] without testing it (line 223): with a null [actual_out]
    and a decompressor allocated the run stops in undefined behaviour, it
    returns no result code, the engine is never run and the decompressor is
    still held; the same call with a pointer supplied returns. *)
Theorem uncompress_gdeflate_null_actual_out E inp in_bytes avail l σ decomp :
  libdeflate_alloc_gdeflate_decompressor E = Some decomp ->
  let absent := exr_uncompress_buffer_gdeflate E inp in_bytes avail None σ in
  let supplied := exr_uncompress_buffer_gdeflate E inp in_bytes avail (Some l) σ in
  absent
  = Undefined (MkWorld (trace σ ++ [EvAlloc GdeflateDecompressor None (Some decomp)])
                       (cells σ) (outbuf σ))
  /\ result_of absent = None
  /\ is_Some (result_of supplied)
  /\ held_after [] (new_events σ absent) = [(GdeflateDecompressor, decomp)].
Proof.
  intros Halloc. cbv zeta.
  destruct (exr_uncompress_buffer_gdeflate_events E inp in_bytes avail None σ)
    as [_ Hev].
  rewrite Hev. clear Hev.
  rewrite !exr_uncompress_buffer_gdeflate_run, Halloc. simpl.
  repeat split.
  destruct (libdeflate_gdeflate_decompress E decomp _ 1 (outbuf σ) avail)
    as [[res produced] buf']. simpl. eauto.
Qed.

(** The copy-through engine, twelve bytes of room, no [actual_out]. *)
Lemma uncompress_gdeflate_null_actual_out_witness :
  result_of (exr_uncompress_buffer_gdeflate (Toy.engine (Some 1%nat) 0)
               Toy.abcdef 6 12 None (Toy.fresh 12)) = None
  /\ result_of (exr_uncompress_buffer_gdeflate (Toy.engine (Some 1%nat) 0)
                  Toy.abcdef 6 12 (Some 7%nat) (Toy.fresh 12))
     = Some EXR_ERR_SUCCESS.
Proof.
  destruct (uncompress_gdeflate_null_actual_out (Toy.engine (Some 1%nat) 0)
              Toy.abcdef 6 12 7%nat (Toy.fresh 12) 1%nat eq_refl)
    as (_ & Hnone & _ & _).
  split; [exact Hnone | reflexivity].
Defined.

(** ** Contexts are released *)

Lemma held_after_bracket d level k lv ctx pages :
  held_after [] (resolve_events d level ++ bracket k lv ctx pages) = [].
Proof.
  unfold resolve_events, bracket.
  destruct (level <? 0); simpl; rewrite decide_True by reflexivity; reflexivity.
Qed.

Lemma held_after_failed_alloc d level k lv :
  held_after [] (resolve_events d level ++ [EvAlloc k lv None]) = [].
Proof. unfold resolve_events. destruct (level <? 0); reflexivity. Qed.

Lemma every_alloc_freed_bracket d level k lv ctx pages :
  every_alloc_freed (resolve_events d level ++ bracket k lv ctx pages).
Proof.
  unfold resolve_events, bracket, every_alloc_freed.
  destruct (level <? 0); simpl; intros i k' lv' ctx' Hi.
  - destruct i as [|[|[|[|[|]]]]]; simpl in Hi; try discriminate.
    injection Hi as <- <- <-. exists 3%nat. split; [lia|reflexivity].
  - destruct i as [|[|[|[|]]]]; simpl in Hi; try discriminate.
    injection Hi as <- <- <-. exists 2%nat. split; [lia|reflexivity].
Qed.

Lemma every_alloc_freed_failed_alloc d level k lv :
  every_alloc_freed (resolve_events d level ++ [EvAlloc k lv None]).
Proof.
  unfold resolve_events, every_alloc_freed.
  destruct (level <? 0); simpl; intros i k' lv' ctx' Hi.
  - destruct i as [|[|[|]]]; simpl in Hi; discriminate.
  - destruct i as [|[|]]; simpl in Hi; discriminate.
Qed.

(** C9.  Each of the four operations, whenever it returns, has freed the
    engine context it allocated: on the success path and on every failure
    path the free of the context follows its allocation, and no context is
    held at the return. *)
Theorem contexts_released
    w E d level inp in_bytes avail page_count page_size actual_out σ :
  releases_contexts σ
    (exr_compress_buffer E d level inp in_bytes avail actual_out σ)
  /\ releases_contexts σ
       (exr_uncompress_buffer E inp in_bytes avail actual_out σ)
  /\ releases_contexts σ
       (exr_compress_buffer_gdeflate w E d level inp in_bytes avail
          page_count page_size actual_out σ)
  /\ releases_contexts σ
       (exr_uncompress_buffer_gdeflate E inp in_bytes avail actual_out σ).
Proof.
  unfold releases_contexts.
  destruct (exr_compress_buffer_events E d level inp in_bytes avail actual_out σ)
    as [Ht1 He1].
  destruct (exr_uncompress_buffer_events E inp in_bytes avail actual_out σ)
    as [Ht2 He2].
  destruct (exr_compress_buffer_gdeflate_events w E d level inp in_bytes avail
              page_count page_size actual_out σ) as [Ht3 He3].
  destruct (exr_uncompress_buffer_gdeflate_events E inp in_bytes avail actual_out σ)
    as [Ht4 He4].
  cbv zeta in *.
  split; [|split; [|split]]; (split; [assumption|]); intros Hret.
  - rewrite He1. destruct (libdeflate_alloc_compressor E _); split;
      auto using held_after_bracket, held_after_failed_alloc,
        every_alloc_freed_bracket, every_alloc_freed_failed_alloc.
  - rewrite He2. change (@nil event) with (resolve_events 0 0).
    destruct (libdeflate_alloc_decompressor E); split;
      first [ apply (held_after_bracket 0 0)
            | apply (held_after_failed_alloc 0 0)
            | apply (every_alloc_freed_bracket 0 0)
            | apply (every_alloc_freed_failed_alloc 0 0) ].
  - rewrite He3. destruct (libdeflate_alloc_gdeflate_compressor E _); split;
      auto using held_after_bracket, held_after_failed_alloc,
        every_alloc_freed_bracket, every_alloc_freed_failed_alloc.
  - rewrite He4.
    rewrite exr_uncompress_buffer_gdeflate_run in Hret.
    destruct (libdeflate_alloc_gdeflate_decompressor E) as [decomp|].
    + destruct actual_out as [l|]; simpl in Hret.
      * rewrite bool_decide_eq_true_2 by eauto.
        split; [apply (held_after_bracket 0 0)
               | apply (every_alloc_freed_bracket 0 0)].
      * destruct Hret as [x Hx]. discriminate.
    + split; [apply (held_after_failed_alloc 0 0)
             | apply (every_alloc_freed_failed_alloc 0 0)].
Qed.

(** The four operations on the copy-through engine: each returns, with
    nothing held. *)
Lemma contexts_released_witness :
  held_after []
    (new_events (Toy.fresh 12)
       (exr_compress_buffer (Toy.engine (Some 1%nat) 0) (-1) (-1)
          Toy.abcdef 6 12 (Some 7%nat) (Toy.fresh 12))) = []
  /\ held_after []
       (new_events (Toy.fresh 12)
          (exr_uncompress_buffer_gdeflate (Toy.engine (Some 1%nat) 0)
             Toy.abcdef 6 12 (Some 7%nat) (Toy.fresh 12))) = [].
Proof.
  destruct (contexts_released 64 (Toy.engine (Some 1%nat) 0) (-1) (-1)
              Toy.abcdef 6 12 3 4 (Some 7%nat) (Toy.fresh 12))
    as ([_ H1] & _ & _ & [_ H4]).
  split.
  - apply H1. vm_compute. eexists. reflexivity.
  - apply H4. vm_compute. eexists. reflexivity.
Defined.

(** * Further properties of the estimators *)

Lemma legacy_bound_split n : n * 130 / 128 = n + n / 64.
Proof.
  replace (n * 130) with (n * 128 + 2 * n) by lia.
  rewrite Z.div_add_l by lia.
  change 128 with (2 * 64) at 1.
  rewrite Z.div_mul_cancel_l by lia. reflexivity.
Qed.

Lemma wrapped_product_div_range w a b :
  0 <= w -> 0 <= mulw w a b / 128 <= SIZE_MAX w.
Proof.
  intros Hw. destruct (wrap_range w (a * b) Hw) as [H0 H1].
  fold (mulw w a b) in H0, H1.
  split; [apply Z.div_pos; lia|].
  assert (128 * (mulw w a b / 128) <= mulw w a b) by (apply Z.mul_div_le; lia).
  assert (0 <= mulw w a b / 128) by (apply Z.div_pos; lia).
  lia.
Qed.

Lemma pad_buffer_size_is_size_t w in_bytes r :
  16 <= w -> is_size_t w r ->
  is_size_t w (internal_compress_pad_buffer_size w in_bytes r).
Proof.
  intros Hw [Hr0 Hr].
  pose proof (size_max_16 w Hw) as Hmax.
  pose proof (wrapped_product_div_range w in_bytes 130 ltac:(lia)) as Hex.
  unfold is_size_t, internal_compress_pad_buffer_size, addw.
  destruct (Z.ltb_spec (SIZE_MAX w - 9) r); [lia|].
  rewrite wrap_small by lia. ltb_cases.
Qed.

(** X1.  For [size_t] arguments the estimate is a [size_t]; it is the
    saturation value or at least [r + 9]; when [in_bytes * 130] does not
    overflow it is at least [in_bytes + in_bytes / 64]; and for an empty
    input it is exactly [r + 9]. *)
Theorem pad_buffer_size_bounds w in_bytes r :
  16 <= w -> is_size_t w in_bytes -> is_size_t w r ->
  let b := internal_compress_pad_buffer_size w in_bytes r in
  is_size_t w b
  /\ (b = SIZE_MAX w \/ r + 9 <= b)
  /\ (in_bytes * 130 <= SIZE_MAX w -> in_bytes + in_bytes / 64 <= b)
  /\ (in_bytes = 0 -> r <= SIZE_MAX w - 9 -> b = r + 9).
Proof.
  intros Hw [Hn0 Hn] [Hr0 Hr]. cbv zeta.
  pose proof (size_max_16 w Hw) as Hmax.
  pose proof (wrapped_product_div_range w in_bytes 130 ltac:(lia)) as Hex.
  split; [|split; [|split]].
  - apply pad_buffer_size_is_size_t; [assumption | split; assumption].
  - unfold internal_compress_pad_buffer_size, addw.
    destruct (Z.ltb_spec (SIZE_MAX w - 9) r); [auto|].
    rewrite wrap_small by lia. ltb_cases; auto; right; lia.
  - intros Hmul. rewrite <- legacy_bound_split.
    assert (in_bytes * 130 / 128 <= SIZE_MAX w).
    { assert (128 * (in_bytes * 130 / 128) <= in_bytes * 130)
        by (apply Z.mul_div_le; lia).
      assert (0 <= in_bytes * 130 / 128) by (apply Z.div_pos; lia). lia. }
    destruct (Z.ltb_spec (SIZE_MAX w - 9) r).
    + rewrite pad_buffer_size_saturates_add by assumption. lia.
    + rewrite pad_buffer_size_value by lia. lia.
  - intros -> Hr9. rewrite pad_buffer_size_value by lia.
    change (0 * 130 / 128) with 0. lia.
Qed.

(** One megabyte with an engine bound of 1001015 bytes. *)
Lemma pad_buffer_size_bounds_witness :
  1001015 + 9 <= internal_compress_pad_buffer_size 64 1000000 1001015
  /\ 1000000 + 1000000 / 64 <= internal_compress_pad_buffer_size 64 1000000 1001015.
Proof.
  destruct (pad_buffer_size_bounds 64 1000000 1001015)
    as (_ & [Hsat|Hr] & Hlegacy & _).
  - vm_compute; congruence.
  - vm_compute; split; congruence.
  - vm_compute; split; congruence.
  - vm_compute in Hsat. discriminate.
  - split; [exact Hr|]. apply Hlegacy. vm_compute; congruence.
Defined.

(** X2.  A larger engine bound never gives a smaller estimate. *)
Theorem pad_buffer_size_monotone_in_bound w in_bytes r1 r2 :
  0 <= w -> is_size_t w r1 -> is_size_t w r2 -> r1 <= r2 ->
  internal_compress_pad_buffer_size w in_bytes r1
  <= internal_compress_pad_buffer_size w in_bytes r2.
Proof.
  intros Hw [Ha0 Ha] [Hb0 Hb] Hle.
  pose proof (wrapped_product_div_range w in_bytes 130 Hw) as Hex.
  unfold internal_compress_pad_buffer_size, addw.
  destruct (Z.ltb_spec (SIZE_MAX w - 9) r1), (Z.ltb_spec (SIZE_MAX w - 9) r2);
    try lia; rewrite ?wrap_small by lia; ltb_cases.
Qed.

Lemma pad_buffer_size_monotone_in_bound_witness :
  internal_compress_pad_buffer_size 64 1000 20
  <= internal_compress_pad_buffer_size 64 1000 5000.
Proof.
  apply pad_buffer_size_monotone_in_bound; vm_compute; try split; congruence.
Defined.

(** X3.  Inputs at the top of the range saturate both public estimators
    whatever the engine answers: for [in_bytes = SIZE_MAX - k] with
    [130 * (k + 1) <= 2^w] the single-stream estimate is [SIZE_MAX], and so
    is the page-split total whenever the engine's page count is not zero. *)
Theorem estimators_saturate_near_max w E k :
  0 <= w -> 0 <= k -> 130 * (k + 1) <= 2 ^ w ->
  let in_bytes := SIZE_MAX w - k in
  let page_count := (libdeflate_gdeflate_compress_bound E in_bytes).2 in
  exr_compress_max_buffer_size w E in_bytes = SIZE_MAX w
  /\ (page_count <> 0 ->
      exr_compress_gdeflate_max_buffer_size w E in_bytes
      = Some (SIZE_MAX w, page_count, SIZE_MAX w / page_count)).
Proof.
  intros Hw Hk Hfit. cbv zeta. split.
  - unfold exr_compress_max_buffer_size.
    apply pad_buffer_size_saturates_near_max; assumption.
  - intros Hpc. rewrite gdeflate_max_buffer_size_value by assumption.
    rewrite pad_buffer_size_saturates_near_max by assumption. reflexivity.
Qed.

(** The largest 64-bit size with the copy-through engine. *)
Lemma estimators_saturate_near_max_witness :
  exr_compress_max_buffer_size 64 (Toy.engine None 0) (SIZE_MAX 64 - 0)
  = SIZE_MAX 64.
Proof.
  apply (estimators_saturate_near_max 64 (Toy.engine None 0) 0);
    vm_compute; congruence.
Defined.

Lemma gdeflate_estimate_division w E in_bytes total pc page_size :
  exr_compress_gdeflate_max_buffer_size w E in_bytes
  = Some (total, pc, page_size) ->
  0 < pc ->
  pc = (libdeflate_gdeflate_compress_bound E in_bytes).2
  /\ total = internal_compress_pad_buffer_size w in_bytes
               (libdeflate_gdeflate_compress_bound E in_bytes).1
  /\ page_size * pc <= total < page_size * pc + pc
  /\ total - (pc - 1) * page_size = page_size + total mod pc.
Proof.
  unfold exr_compress_gdeflate_max_buffer_size.
  destruct (libdeflate_gdeflate_compress_bound E in_bytes) as [r pc0]. simpl.
  destruct (Z.eqb_spec pc0 0) as [Hz|Hnz]; [discriminate|].
  intros Heq Hpos. injection Heq as <- <- <-.
  set (total := internal_compress_pad_buffer_size w in_bytes r).
  pose proof (Z.div_mod total pc0 Hnz) as Hdm.
  pose proof (Z.mod_pos_bound total pc0 Hpos) as Hmod.
  repeat split; try lia; nia.
Qed.

(** X4.  The page-split estimator is defined exactly when the engine's
    page count is not zero; its page size is the total divided by the page
    count rounded down, so the pages together fall short of the total by
    less than one byte per page. *)
Theorem gdeflate_estimate_page_size w E in_bytes :
  let page_count := (libdeflate_gdeflate_compress_bound E in_bytes).2 in
  (exr_compress_gdeflate_max_buffer_size w E in_bytes = None <-> page_count = 0)
  /\ (forall total pc page_size,
        exr_compress_gdeflate_max_buffer_size w E in_bytes
        = Some (total, pc, page_size) ->
        0 < pc ->
        pc = page_count
        /\ total = internal_compress_pad_buffer_size w in_bytes
                     (libdeflate_gdeflate_compress_bound E in_bytes).1
        /\ page_size * pc <= total < page_size * pc + pc
        /\ total - (pc - 1) * page_size = page_size + total mod pc).
Proof.
  cbv zeta. split.
  - unfold exr_compress_gdeflate_max_buffer_size.
    destruct (libdeflate_gdeflate_compress_bound E in_bytes) as [r pc0]. simpl.
    destruct (Z.eqb_spec pc0 0); split; congruence.
  - intros total pc page_size. apply gdeflate_estimate_division.
Qed.

(** An engine that asks for pages of 65536 input bytes, on 200000 bytes. *)
Lemma gdeflate_estimate_page_size_witness :
  exists total page_size,
    exr_compress_gdeflate_max_buffer_size 64 (Toy.engine None 0) 200000
    = Some (total, 4, page_size)
    /\ page_size * 4 <= total < page_size * 4 + 4.
Proof.
  destruct (gdeflate_estimate_page_size 64 (Toy.engine None 0) 200000)
    as [_ Hsome].
  eexists _, _. split; [reflexivity|].
  apply (Hsome _ 4 _ eq_refl). reflexivity.
Defined.

(** * Further properties of the page geometry *)

Lemma total_nbytes_uniform (f : Z -> out_page) page_size l :
  (forall i, i ∈ l -> nbytes (f i) = page_size) ->
  total_nbytes (f <$> l) = Z.of_nat (length l) * page_size.
Proof.
  unfold total_nbytes. induction l as [|i l IH]; intros Hall; [reflexivity|].
  cbn [fmap list_fmap foldr length].
  rewrite Hall by (left). fold (fmap f l). rewrite IH.
  - lia.
  - intros j Hj. apply Hall. right. exact Hj.
Qed.

(** With the page slots inside the output the capacities add up to the
    capacity of the output. *)
Lemma init_out_pages_total w avail n page_size :
  is_size_t w avail -> 0 <= page_size ->
  1 <= n <= SIZE_MAX w -> (n - 1) * page_size <= avail ->
  total_nbytes (init_out_pages w avail n page_size) = avail.
Proof.
  intros Ha Hps Hn Hgeo. unfold init_out_pages.
  rewrite subw_exact by (unfold is_size_t; lia).
  replace (n - 1 + 1) with (Z.of_nat (S (Z.to_nat (n - 1)))) by lia.
  rewrite seqZ_S, fmap_app, total_nbytes_app.
  rewrite (total_nbytes_uniform _ page_size).
  - rewrite length_seqZ, Nat2Z.id, Z2Nat.id by lia.
    cbn [fmap list_fmap]. unfold total_nbytes. cbn [foldr nbytes].
    rewrite Z.add_0_l, Z.ltb_irrefl.
    unfold mulw. unfold is_size_t in Ha. rewrite wrap_small by nia.
    rewrite subw_exact by (unfold is_size_t; nia). lia.
  - intros i Hi. apply elem_of_seqZ in Hi. cbn [nbytes].
    destruct (Z.ltb_spec i (n - 1)); [reflexivity|lia].
Qed.

(** X5.  For page counts the [int] counter of line 176 can count
    ([INT_MAX] at most) and page slots that lie inside the output,
    [(page_count - 1) * page_size <= out_bytes_avail], the loop is defined
    and the descriptors it builds tile the output buffer: page 0 starts at
    offset 0, every page starts where the previous one ends, the last page
    ends at [out_bytes_avail], and the capacities add up to
    [out_bytes_avail]. *)
Theorem out_pages_tile_output w avail page_count page_size :
  0 < w -> is_size_t w avail -> is_size_t w page_count -> is_size_t w page_size ->
  let n := normalize_page_count page_count in
  n <= INT_MAX ->
  (n - 1) * page_size <= avail ->
  exists pages,
    init_out_pages_loop w avail n page_size = Some pages
    /\ total_nbytes pages = avail
    /\ (exists p0, pages !! 0%nat = Some p0 /\ data p0 = 0)
    /\ (forall i p q, 0 <= i -> pages !! Z.to_nat i = Some p ->
          pages !! Z.to_nat (i + 1) = Some q -> data q = data p + nbytes p)
    /\ (forall p, last pages = Some p -> data p + nbytes p = avail).
Proof.
  intros Hw Ha Hpc [Hps0 Hps] n Hint Hgeo.
  pose proof (normalize_page_count_range w page_count Hw Hpc) as Hn.
  fold n in Hn.
  set (pages := init_out_pages w avail n page_size).
  assert (Hlen : length pages = Z.to_nat n)
    by (apply init_out_pages_length; assumption).
  exists pages.
  split; [apply init_out_pages_loop_defined; assumption|].
  split; [apply init_out_pages_total; assumption|].
  split; [|split].
  - eexists. split.
    + apply (init_out_pages_lookup_exact w avail n page_size 0); try assumption; lia.
    + simpl. lia.
  - intros i p q Hi Hp Hq.
    pose proof (lookup_lt_Some _ _ _ Hq) as Hlt. rewrite Hlen in Hlt.
    unfold pages in Hp, Hq.
    rewrite (init_out_pages_lookup_exact w avail n page_size i) in Hp
      by (try assumption; lia).
    rewrite (init_out_pages_lookup_exact w avail n page_size (i + 1)) in Hq
      by (try assumption; lia).
    injection Hp as <-. injection Hq as <-. simpl.
    destruct (Z.ltb_spec i (n - 1)); lia.
  - intros p Hp. unfold pages in Hp.
    rewrite init_out_pages_last in Hp by assumption.
    injection Hp as <-. simpl.
    unfold mulw. unfold is_size_t in Ha. rewrite wrap_small by nia.
    rewrite subw_exact by (unfold is_size_t; nia). lia.
Qed.

(** Fourteen bytes in three pages of four: the last page takes six. *)
Lemma out_pages_tile_output_witness :
  exists pages,
    init_out_pages_loop 64 14 (normalize_page_count 3) 4 = Some pages
    /\ total_nbytes pages = 14
    /\ (forall p, last pages = Some p -> data p + nbytes p = 14).
Proof.
  destruct (out_pages_tile_output 64 14 3 4)
    as (pages & Hloop & Htotal & _ & _ & Hlast).
  - reflexivity.
  - vm_compute; split; congruence.
  - vm_compute; split; congruence.
  - vm_compute; split; congruence.
  - vm_compute; congruence.
  - vm_compute; congruence.
  - exists pages. auto.
Defined.

(** X6.  The two halves fit together: a caller that passes the
    estimator's total, page count and page size on to
    [exr_compress_buffer_gdeflate], with a page count the [int] counter of
    line 176 can count ([INT_MAX] at most), gets a defined loop, page
    slots that lie inside the output and capacities that add up to the
    total, so the last capacity does not wrap; the last page is
    [total mod page_count] bytes larger than the others. *)
Theorem estimated_pages_fit_output w E in_bytes total page_count page_size :
  16 <= w -> is_size_t w in_bytes ->
  is_size_t w (libdeflate_gdeflate_compress_bound E in_bytes).1 ->
  is_size_t w page_count -> 0 < page_count -> page_count <= INT_MAX ->
  exr_compress_gdeflate_max_buffer_size w E in_bytes
  = Some (total, page_count, page_size) ->
  exists pages,
    init_out_pages_loop w total (normalize_page_count page_count) page_size
    = Some pages
    /\ (page_count - 1) * page_size <= total
    /\ total_nbytes pages = total
    /\ last pages
       = Some (OutPage ((page_count - 1) * page_size)
                 (page_size + total mod page_count)).
Proof.
  intros Hw Hin Hr Hpc Hpos Hint Hest.
  destruct (gdeflate_estimate_division w E in_bytes _ _ _ Hest Hpos)
    as (_ & Htotal & Hdiv & Hlast).
  pose proof (pad_buffer_size_is_size_t w in_bytes _ Hw Hr) as Hrange.
  rewrite <- Htotal in Hrange.
  assert (Hps0 : 0 <= page_size) by (unfold is_size_t in Hrange; nia).
  assert (Hgeo : (page_count - 1) * page_size <= total) by nia.
  assert (Hnorm : normalize_page_count page_count = page_count).
  { unfold normalize_page_count. destruct (Z.eqb_spec page_count 0); lia. }
  rewrite Hnorm.
  assert (Hn : 1 <= page_count <= SIZE_MAX w) by (destruct Hpc; lia).
  exists (init_out_pages w total page_count page_size).
  split; [apply init_out_pages_loop_defined; assumption|].
  split; [exact Hgeo|]. split.
  - apply init_out_pages_total; assumption.
  - rewrite init_out_pages_last by assumption.
    unfold mulw. unfold is_size_t in Hrange. rewrite wrap_small by nia.
    rewrite subw_exact by (unfold is_size_t; nia).
    rewrite Hlast. reflexivity.
Qed.

(** 200000 input bytes: the engine asks for four pages, the estimator
    gives pages of 50781 bytes out of 203125. *)
Lemma estimated_pages_fit_output_witness :
  exr_compress_gdeflate_max_buffer_size 64 (Toy.engine None 0) 200000
  = Some (203125, 4, 50781)
  /\ exists pages,
       init_out_pages_loop 64 203125 (normalize_page_count 4) 50781 = Some pages
       /\ total_nbytes pages = 203125.
Proof.
  split; [reflexivity|].
  destruct (estimated_pages_fit_output 64 (Toy.engine None 0) 200000
              203125 4 50781) as (pages & Hloop & _ & Htotal & _).
  - vm_compute; congruence.
  - vm_compute; split; congruence.
  - vm_compute; split; congruence.
  - vm_compute; split; congruence.
  - reflexivity.
  - vm_compute; congruence.
  - reflexivity.
  - exists pages. auto.
Defined.

(** * Further properties of the four operations *)

(** X7.  When the engine cannot allocate a context, each of the four
    operations returns OutOfMemory at once: the engine is not run, the
    output buffer and the caller's cells are as before, and even a null
    [actual_out] is harmless. *)
Theorem alloc_failure_is_out_of_memory
    w E d level inp in_bytes avail page_count page_size actual_out σ :
  let lv := level_after_resolve d level in
  let failed k level :=
    Returns EXR_ERR_OUT_OF_MEMORY
      (MkWorld (trace σ ++ resolve_events d level ++ [EvAlloc k (Some lv) None])
               (cells σ) (outbuf σ)) in
  let failed' k :=
    Returns EXR_ERR_OUT_OF_MEMORY
      (MkWorld (trace σ ++ [EvAlloc k None None]) (cells σ) (outbuf σ)) in
  (libdeflate_alloc_compressor E lv = None ->
   exr_compress_buffer E d level inp in_bytes avail actual_out σ
   = failed Compressor level)
  /\ (libdeflate_alloc_decompressor E = None ->
      exr_uncompress_buffer E inp in_bytes avail actual_out σ
      = failed' Decompressor)
  /\ (libdeflate_alloc_gdeflate_compressor E lv = None ->
      exr_compress_buffer_gdeflate w E d level inp in_bytes avail
        page_count page_size actual_out σ
      = failed GdeflateCompressor level)
  /\ (libdeflate_alloc_gdeflate_decompressor E = None ->
      exr_uncompress_buffer_gdeflate E inp in_bytes avail actual_out σ
      = failed' GdeflateDecompressor).
Proof.
  cbv zeta. repeat split; intros Halloc.
  - rewrite exr_compress_buffer_run. cbv zeta. rewrite Halloc.
    rewrite <- app_assoc. reflexivity.
  - rewrite exr_uncompress_buffer_run, Halloc. reflexivity.
  - rewrite exr_compress_buffer_gdeflate_run. cbv zeta. rewrite Halloc.
    rewrite <- app_assoc. reflexivity.
  - rewrite exr_uncompress_buffer_gdeflate_run, Halloc. reflexivity.
Qed.

(** An engine that never allocates. *)
Lemma alloc_failure_is_out_of_memory_witness :
  result_of (exr_compress_buffer (Toy.engine None 0) (-1) 2
               Toy.abcdef 6 12 None (Toy.fresh 12))
  = Some EXR_ERR_OUT_OF_MEMORY
  /\ exr_uncompress_buffer_gdeflate (Toy.engine None 0)
       Toy.abcdef 6 12 None (Toy.fresh 12)
     = Returns EXR_ERR_OUT_OF_MEMORY
         (MkWorld [EvAlloc GdeflateDecompressor None None] ∅
                  (replicate 12 Byte.x00)).
Proof.
  destruct (alloc_failure_is_out_of_memory 64 (Toy.engine None 0) (-1) 2
              Toy.abcdef 6 12 3 4 None (Toy.fresh 12))
    as (H1 & _ & _ & H4).
  split.
  - rewrite H1 by reflexivity. reflexivity.
  - rewrite H4 by reflexivity. reflexivity.
Defined.

(** X8.  [exr_uncompress_buffer_gdeflate] with [actual_out] supplied and a
    decompressor allocated: the result is Success exactly when the engine
    answers LIBDEFLATE_SUCCESS and CorruptData otherwise, with no test of
    how much input was consumed; the cell behind [actual_out] is always
    written, with the engine's count if it stored one and with
    [out_bytes_avail] otherwise; no other cell changes. *)
Theorem uncompress_gdeflate_result E inp in_bytes avail l σ decomp :
  libdeflate_alloc_gdeflate_decompressor E = Some decomp ->
  let answer :=
    libdeflate_gdeflate_decompress E decomp (InPage inp in_bytes) 1
      (outbuf σ) avail in
  let o := exr_uncompress_buffer_gdeflate E inp in_bytes avail (Some l) σ in
  (result_of o = Some EXR_ERR_SUCCESS <-> answer.1.1 = LIBDEFLATE_SUCCESS)
  /\ (answer.1.1 <> LIBDEFLATE_SUCCESS ->
      result_of o = Some EXR_ERR_CORRUPT_CHUNK)
  /\ cells (world_of o) !! l = Some (default avail answer.1.2)
  /\ (forall l', l' <> l -> cells (world_of o) !! l' = cells σ !! l')
  /\ outbuf (world_of o) = answer.2.
Proof.
  intros Halloc. cbv zeta.
  rewrite exr_uncompress_buffer_gdeflate_run, Halloc.
  destruct (libdeflate_gdeflate_decompress E decomp _ 1 (outbuf σ) avail)
    as [[res produced] buf']. simpl.
  split; [|split; [|split; [|split]]].
  - destruct res; simpl; split; congruence.
  - destruct res; simpl; congruence.
  - destruct produced as [n|]; simpl; rewrite ?lookup_insert_eq; reflexivity.
  - intros l' Hne. destruct produced as [n|]; simpl;
      rewrite !lookup_insert_ne by congruence; reflexivity.
  - reflexivity.
Qed.

(** Six bytes into room for twelve, then into room for four. *)
Lemma uncompress_gdeflate_result_witness :
  cells (world_of (exr_uncompress_buffer_gdeflate (Toy.engine (Some 1%nat) 0)
                     Toy.abcdef 6 12 (Some 7%nat) (Toy.fresh 12))) !! 7%nat
  = Some 6
  /\ cells (world_of (exr_uncompress_buffer_gdeflate (Toy.engine (Some 1%nat) 0)
                        Toy.abcdef 6 4 (Some 7%nat) (Toy.fresh 4))) !! 7%nat
     = Some 4
  /\ result_of (exr_uncompress_buffer_gdeflate (Toy.engine (Some 1%nat) 0)
                  Toy.abcdef 6 4 (Some 7%nat) (Toy.fresh 4))
     = Some EXR_ERR_CORRUPT_CHUNK.
Proof.
  destruct (uncompress_gdeflate_result (Toy.engine (Some 1%nat) 0)
              Toy.abcdef 6 12 7%nat (Toy.fresh 12) 1%nat eq_refl)
    as (_ & _ & Hcell & _).
  destruct (uncompress_gdeflate_result (Toy.engine (Some 1%nat) 0)
              Toy.abcdef 6 4 7%nat (Toy.fresh 4) 1%nat eq_refl)
    as (_ & Hbad & Hcell' & _).
  split; [exact Hcell|].
  split; [exact Hcell'|].
  apply Hbad. vm_compute. congruence.
Defined.

(** X9.  The result codes each operation can give: the two compressors
    never answer CorruptData; the two decompressors answer OutOfMemory
    exactly when the allocation failed; and [exr_compress_buffer] and
    [exr_uncompress_buffer] always return. *)
Theorem result_code_ranges
    w E d level inp in_bytes avail page_count page_size actual_out σ :
  let single := exr_compress_buffer E d level inp in_bytes avail actual_out σ in
  let paged := exr_compress_buffer_gdeflate w E d level inp in_bytes avail
                 page_count page_size actual_out σ in
  let unsingle := exr_uncompress_buffer E inp in_bytes avail actual_out σ in
  let unpaged := exr_uncompress_buffer_gdeflate E inp in_bytes avail actual_out σ in
  (result_of single = Some EXR_ERR_SUCCESS
   \/ result_of single = Some EXR_ERR_OUT_OF_MEMORY)
  /\ result_of paged <> Some EXR_ERR_CORRUPT_CHUNK
  /\ (result_of unsingle = Some EXR_ERR_OUT_OF_MEMORY
      \/ result_of unsingle = Some EXR_ERR_SUCCESS
      \/ result_of unsingle = Some EXR_ERR_CORRUPT_CHUNK)
  /\ (result_of unsingle = Some EXR_ERR_OUT_OF_MEMORY
      <-> libdeflate_alloc_decompressor E = None)
  /\ (result_of unpaged = Some EXR_ERR_OUT_OF_MEMORY
      <-> libdeflate_alloc_gdeflate_decompressor E = None).
Proof.
  cbv zeta.
  rewrite exr_compress_buffer_run, exr_compress_buffer_gdeflate_run,
    exr_uncompress_buffer_run, exr_uncompress_buffer_gdeflate_run.
  cbv zeta. split; [|split; [|split; [|split]]].
  - destruct (libdeflate_alloc_compressor E _); [|auto].
    destruct (_ =? 0); auto.
  - destruct (libdeflate_alloc_gdeflate_compressor E _); [|discriminate].
    destruct (_ =? 0); [discriminate|].
    destruct (compact_pages _ _ _); discriminate.
  - destruct (libdeflate_alloc_decompressor E) as [decomp|]; [|auto].
    destruct (libdeflate_zlib_decompress_ex E decomp inp in_bytes (outbuf σ) avail _)
      as [[[res actual_in] produced] buf']. simpl.
    destruct (is_LIBDEFLATE_SUCCESS res && (in_bytes =? actual_in)); auto.
  - destruct (libdeflate_alloc_decompressor E) as [decomp|]; [|tauto].
    destruct (libdeflate_zlib_decompress_ex E decomp inp in_bytes (outbuf σ) avail _)
      as [[[res actual_in] produced] buf']. simpl.
    destruct (is_LIBDEFLATE_SUCCESS res && (in_bytes =? actual_in));
      split; discriminate.
  - destruct (libdeflate_alloc_gdeflate_decompressor E) as [decomp|]; [|tauto].
    destruct actual_out as [l|]; [|split; discriminate].
    destruct (libdeflate_gdeflate_decompress E decomp _ 1 (outbuf σ) avail)
      as [[res produced] buf']. simpl.
    destruct (is_LIBDEFLATE_SUCCESS res); split; discriminate.
Qed.

(** An engine without contexts answers OutOfMemory on decode; with one,
    a clean stream decodes with Success. *)
Lemma result_code_ranges_witness :
  result_of (exr_uncompress_buffer (Toy.engine None 0)
               Toy.abcdef 6 12 None (Toy.fresh 12))
  = Some EXR_ERR_OUT_OF_MEMORY
  /\ result_of (exr_uncompress_buffer (Toy.engine (Some 1%nat) 0)
                  Toy.abcdef 6 12 None (Toy.fresh 12))
     <> Some EXR_ERR_OUT_OF_MEMORY.
Proof.
  destruct (result_code_ranges 64 (Toy.engine None 0) (-1) 2
              Toy.abcdef 6 12 3 4 None (Toy.fresh 12))
    as (_ & _ & _ & [_ Hoom] & _).
  destruct (result_code_ranges 64 (Toy.engine (Some 1%nat) 0) (-1) 2
              Toy.abcdef 6 12 3 4 None (Toy.fresh 12))
    as (_ & _ & _ & [Hnot _] & _).
  split; [apply Hoom; reflexivity|].
  intros H. apply Hnot in H. discriminate.
Defined.

(** X10.  The compressors store through [actual_out] only after the
    engine returned a size that is not zero, and what they store is that
    size.  With a context allocated: after Success the cell behind
    [actual_out] holds the size the engine returned, which is not zero,
    and no other cell changed; after OutOfMemory the engine returned zero
    and no cell changed; a page-split run (page count within [int]) that
    does not return has stored the engine's size before its compaction
    became undefined.  Without a context no cell changes. *)
Theorem compress_reports_only_on_success
    w E d level inp in_bytes avail page_count page_size l σ :
  let lv := level_after_resolve d level in
  let single := exr_compress_buffer E d level inp in_bytes avail (Some l) σ in
  let paged := exr_compress_buffer_gdeflate w E d level inp in_bytes avail
                 page_count page_size (Some l) σ in
  let n := normalize_page_count page_count in
  (forall comp,
     libdeflate_alloc_compressor E lv = Some comp ->
     let outsz :=
       (libdeflate_zlib_compress E comp inp in_bytes (outbuf σ) avail).1 in
     (result_of single = Some EXR_ERR_SUCCESS ->
      outsz <> 0 /\ cells (world_of single) = <[l := outsz]> (cells σ))
     /\ (result_of single = Some EXR_ERR_OUT_OF_MEMORY ->
         outsz = 0 /\ cells (world_of single) = cells σ))
  /\ (libdeflate_alloc_compressor E lv = None ->
      cells (world_of single) = cells σ)
  /\ (forall comp,
        libdeflate_alloc_gdeflate_compressor E lv = Some comp ->
        n <= INT_MAX ->
        let outsz :=
          (libdeflate_gdeflate_compress E comp inp in_bytes (outbuf σ)
             (init_out_pages w avail n page_size) n).1.1 in
        (result_of paged = Some EXR_ERR_SUCCESS ->
         outsz <> 0 /\ cells (world_of paged) = <[l := outsz]> (cells σ))
        /\ (result_of paged = Some EXR_ERR_OUT_OF_MEMORY ->
            outsz = 0 /\ cells (world_of paged) = cells σ)
        /\ (result_of paged = None ->
            outsz <> 0 /\ cells (world_of paged) = <[l := outsz]> (cells σ)))
  /\ (libdeflate_alloc_gdeflate_compressor E lv = None ->
      cells (world_of paged) = cells σ).
Proof.
  cbv zeta.
  rewrite exr_compress_buffer_run, exr_compress_buffer_gdeflate_run. cbv zeta.
  split; [|split; [|split]].
  - intros comp ->.
    match goal with |- context [?x =? 0] => destruct (Z.eqb_spec x 0) end; simpl.
    + split; [discriminate|auto].
    + split; [auto|discriminate].
  - intros ->. reflexivity.
  - intros comp -> _.
    match goal with |- context [?x =? 0] => destruct (Z.eqb_spec x 0) end; simpl.
    + split; [discriminate|]. split; [auto|discriminate].
    + destruct (compact_pages _ _ _); simpl.
      * split; [auto|]. split; discriminate.
      * split; [discriminate|]. split; [discriminate|auto].
  - intros ->. reflexivity.
Qed.

(** Six bytes with room for twelve, then with room for four; and three
    pages of four announced over an output of four bytes, where the
    compaction leaves the buffer after the size was stored. *)
Lemma compress_reports_only_on_success_witness :
  cells (world_of (exr_compress_buffer (Toy.engine (Some 1%nat) 0) (-1) 2
                     Toy.abcdef 6 12 (Some 7%nat) (Toy.fresh 12)))
  = <[7%nat := 6]> ∅
  /\ cells (world_of (exr_compress_buffer (Toy.engine (Some 1%nat) 0) (-1) 2
                        Toy.abcdef 6 4 (Some 7%nat) (Toy.fresh 4)))
     = ∅
  /\ cells (world_of (exr_compress_buffer_gdeflate 64
                        (Toy.engine (Some 1%nat) 0) (-1) 2
                        Toy.abcdef 6 4 3 4 (Some 7%nat) (Toy.fresh 4)))
     = <[7%nat := 6]> ∅.
Proof.
  destruct (compress_reports_only_on_success 64 (Toy.engine (Some 1%nat) 0)
              (-1) 2 Toy.abcdef 6 12 3 4 7%nat (Toy.fresh 12))
    as (Hsingle & _).
  destruct (compress_reports_only_on_success 64 (Toy.engine (Some 1%nat) 0)
              (-1) 2 Toy.abcdef 6 4 3 4 7%nat (Toy.fresh 4))
    as (Hsingle' & _ & Hpaged & _).
  split; [|split].
  - destruct (Hsingle 1%nat eq_refl) as [Hok _].
    destruct (Hok eq_refl) as [_ Hcells]. exact Hcells.
  - destruct (Hsingle' 1%nat eq_refl) as [_ Hoom].
    destruct (Hoom eq_refl) as [_ Hcells]. exact Hcells.
  - assert (Hint : normalize_page_count 3 <= INT_MAX) by (vm_compute; congruence).
    destruct (Hpaged 1%nat eq_refl Hint) as (_ & _ & Hundef).
    destruct (Hundef eq_refl) as [_ Hcells]. exact Hcells.
Defined.

(** X11.  [exr_uncompress_buffer] does not undo the engine's work when it
    rejects a stream for unread input: the call answers CorruptData, yet
    the output buffer holds what the engine decoded and the cell behind
    [actual_out] holds the count the engine stored. *)
Theorem uncompress_rejects_without_rollback E inp in_bytes avail l σ decomp :
  libdeflate_alloc_decompressor E = Some decomp ->
  let answer :=
    libdeflate_zlib_decompress_ex E decomp inp in_bytes (outbuf σ) avail true in
  answer.1.1.1 = LIBDEFLATE_SUCCESS ->
  answer.1.1.2 <> in_bytes ->
  let o := exr_uncompress_buffer E inp in_bytes avail (Some l) σ in
  result_of o = Some EXR_ERR_CORRUPT_CHUNK
  /\ outbuf (world_of o) = answer.2
  /\ (forall n, answer.1.2 = Some n -> cells (world_of o) !! l = Some n)
  /\ (answer.1.2 = None -> cells (world_of o) = cells σ).
Proof.
  intros Halloc answer Hres Hin. cbv zeta.
  rewrite exr_uncompress_buffer_run, Halloc.
  rewrite bool_decide_eq_true_2 by eauto. fold answer.
  destruct answer as [[[res actual_in] produced] buf']. simpl in *. subst res.
  simpl. destruct (Z.eqb_spec in_bytes actual_in) as [Heq|_]; [congruence|].
  repeat split.
  - intros n ->. simpl. apply lookup_insert_eq.
  - intros ->. reflexivity.
Qed.

(** Four bytes of stream followed by two unread bytes. *)
Lemma uncompress_rejects_without_rollback_witness :
  result_of (exr_uncompress_buffer (Toy.engine (Some 1%nat) 2)
               Toy.abcdef 6 12 (Some 7%nat) (Toy.fresh 12))
  = Some EXR_ERR_CORRUPT_CHUNK
  /\ take 4 (outbuf (world_of (exr_uncompress_buffer (Toy.engine (Some 1%nat) 2)
                                 Toy.abcdef 6 12 (Some 7%nat) (Toy.fresh 12))))
     = take 4 Toy.abcdef
  /\ cells (world_of (exr_uncompress_buffer (Toy.engine (Some 1%nat) 2)
                        Toy.abcdef 6 12 (Some 7%nat) (Toy.fresh 12))) !! 7%nat
     = Some 4.
Proof.
  destruct (uncompress_rejects_without_rollback (Toy.engine (Some 1%nat) 2)
              Toy.abcdef 6 12 7%nat (Toy.fresh 12) 1%nat)
    as (Hres & Hbuf & Hcell & _).
  - reflexivity.
  - reflexivity.
  - vm_compute. congruence.
  - split; [exact Hres|]. split.
    + exact (eq_trans (f_equal (take 4) Hbuf) eq_refl).
    + apply Hcell. reflexivity.
Defined.

Lemma one_context_bracket d level k lv ctx pages :
  one_context_per_call k (resolve_events d level ++ bracket k lv ctx pages).
Proof.
  exists (Some ctx). unfold resolve_events.
  destruct (level <? 0); simpl; split; eauto.
Qed.

Lemma one_context_failed_alloc d level k lv ret :
  one_context_per_call k (resolve_events d level ++ [EvAlloc k lv ret]).
Proof.
  exists ret. unfold resolve_events.
  destruct (level <? 0); simpl; split; eauto.
Qed.

(** X12.  Every call builds its own context and shares none: whatever
    the engine answers, a call makes exactly one allocation, of the kind
    the operation needs, and the engine runs at most once and only with
    the context that allocation returned (for the page-split compressor:
    with a page count within [int], so that the loop before the engine
    call is defined). *)
Theorem one_context_for_each_call
    w E d level inp in_bytes avail page_count page_size actual_out σ :
  let single := exr_compress_buffer E d level inp in_bytes avail actual_out σ in
  let unsingle := exr_uncompress_buffer E inp in_bytes avail actual_out σ in
  let paged := exr_compress_buffer_gdeflate w E d level inp in_bytes avail
                 page_count page_size actual_out σ in
  let unpaged := exr_uncompress_buffer_gdeflate E inp in_bytes avail actual_out σ in
  one_context_per_call Compressor (new_events σ single)
  /\ one_context_per_call Decompressor (new_events σ unsingle)
  /\ (normalize_page_count page_count <= INT_MAX ->
      one_context_per_call GdeflateCompressor (new_events σ paged))
  /\ one_context_per_call GdeflateDecompressor (new_events σ unpaged).
Proof.
  cbv zeta.
  destruct (exr_compress_buffer_events E d level inp in_bytes avail actual_out σ)
    as [_ ->].
  destruct (exr_uncompress_buffer_events E inp in_bytes avail actual_out σ)
    as [_ ->].
  destruct (exr_compress_buffer_gdeflate_events w E d level inp in_bytes avail
              page_count page_size actual_out σ) as [_ ->].
  destruct (exr_uncompress_buffer_gdeflate_events E inp in_bytes avail actual_out σ)
    as [_ ->].
  split; [|split; [|split]].
  - destruct (libdeflate_alloc_compressor E _);
      auto using one_context_bracket, one_context_failed_alloc.
  - destruct (libdeflate_alloc_decompressor E);
      [apply (one_context_bracket 0 0) | apply (one_context_failed_alloc 0 0)].
  - intros _. destruct (libdeflate_alloc_gdeflate_compressor E _);
      auto using one_context_bracket, one_context_failed_alloc.
  - destruct (libdeflate_alloc_gdeflate_decompressor E);
      [|apply (one_context_failed_alloc 0 0)].
    destruct (bool_decide _);
      [apply (one_context_bracket 0 0) | apply (one_context_failed_alloc 0 0)].
Qed.

(** Three pages with the copy-through engine: one allocation, one run. *)
Lemma one_context_for_each_call_witness :
  one_context_per_call GdeflateCompressor
    (new_events (Toy.fresh 12)
       (exr_compress_buffer_gdeflate 64 (Toy.engine (Some 1%nat) 0) (-1) 2
          Toy.abcdef 6 12 3 4 None (Toy.fresh 12))).
Proof.
  destruct (one_context_for_each_call 64 (Toy.engine (Some 1%nat) 0) (-1) 2
              Toy.abcdef 6 12 3 4 None (Toy.fresh 12)) as (_ & _ & Hpaged & _).
  apply Hpaged. vm_compute. congruence.
Defined.

(** X13.  A page count of zero and a page count of one are the same
    call, and with either the page size plays no part: the two runs are
    equal whatever page sizes they are given. *)
Theorem single_page_ignores_page_size
    w E d level inp in_bytes avail page_size page_size' actual_out σ :
  0 < w -> is_size_t w avail ->
  exr_compress_buffer_gdeflate w E d level inp in_bytes avail
    0 page_size actual_out σ
  = exr_compress_buffer_gdeflate w E d level inp in_bytes avail
      1 page_size' actual_out σ.
Proof.
  intros Hw Ha. rewrite !exr_compress_buffer_gdeflate_run. cbv zeta.
  change (normalize_page_count 0) with 1.
  change (normalize_page_count 1) with 1.
  rewrite !init_out_pages_one by assumption. reflexivity.
Qed.

(** Twelve bytes of output, no page count and pages of 4, one page of 9. *)
Lemma single_page_ignores_page_size_witness :
  exr_compress_buffer_gdeflate 64 (Toy.engine (Some 1%nat) 0) (-1) 2
    Toy.abcdef 6 12 0 4 None (Toy.fresh 12)
  = exr_compress_buffer_gdeflate 64 (Toy.engine (Some 1%nat) 0) (-1) 2
      Toy.abcdef 6 12 1 9 None (Toy.fresh 12).
Proof.
  apply single_page_ignores_page_size; vm_compute; try split; congruence.
Defined.

Lemma total_nbytes_respected pages0 pages :
  engine_respects_pages pages0 pages ->
  total_nbytes pages <= total_nbytes pages0.
Proof.
  unfold engine_respects_pages, total_nbytes.
  induction 1 as [|p0 p l0 l [_ Hp] _ IH]; simpl; lia.
Qed.

(** X14.  Compaction only closes gaps: under the conditions of the
    compaction theorem (a page count within [int], page slots inside the
    output, an engine that keeps to its descriptors) the two loops are
    defined, the buffer keeps its length, the bytes of page 0 stay where
    they are, and every byte from the end of the compacted data on is
    exactly as the engine left it. *)
Theorem gdeflate_compaction_frame
    w E d level inp in_bytes avail page_count page_size actual_out σ comp :
  0 < w -> is_size_t w avail -> is_size_t w page_count -> is_size_t w page_size ->
  libdeflate_alloc_gdeflate_compressor E (level_after_resolve d level) = Some comp ->
  let n := normalize_page_count page_count in
  let pages0 := init_out_pages w avail n page_size in
  let r := libdeflate_gdeflate_compress E comp inp in_bytes (outbuf σ) pages0 n in
  let pages := rewrite_pages pages0 r.1.2 in
  let o := exr_compress_buffer_gdeflate w E d level inp in_bytes avail
             page_count page_size actual_out σ in
  n <= INT_MAX ->
  r.1.1 <> 0 ->
  (n - 1) * page_size <= avail ->
  avail <= Z.of_nat (length r.2) ->
  engine_respects_pages pages0 pages ->
  result_of o = Some EXR_ERR_SUCCESS
  /\ init_out_pages_loop w avail n page_size = Some pages0
  /\ compact_pages_loop pages n r.2 = Some (outbuf (world_of o))
  /\ length (outbuf (world_of o)) = length r.2
  /\ drop (Z.to_nat (total_nbytes pages)) (outbuf (world_of o))
     = drop (Z.to_nat (total_nbytes pages)) r.2
  /\ (forall p0, pages !! 0%nat = Some p0 ->
        take (Z.to_nat (nbytes p0)) (outbuf (world_of o))
        = take (Z.to_nat (nbytes p0)) r.2)
  /\ total_nbytes pages <= avail.
Proof.
  intros Hw Ha Hpc [Hps0 Hps] Halloc n pages0 r pages o Hint Hnz Hgeo Hbuf Hresp.
  pose proof (normalize_page_count_range w page_count Hw Hpc) as Hn.
  fold n in Hn.
  assert (Hlen : length pages = Z.to_nat n).
  { unfold pages. rewrite rewrite_pages_length.
    apply init_out_pages_length; assumption. }
  assert (Hne : pages <> []).
  { intros Hnil. rewrite Hnil in Hlen. simpl in Hlen. lia. }
  pose proof (pages_fit_of_geometry w avail n page_size pages r.2
                Ha Hps0 Hn Hgeo Hbuf Hresp) as Hfit.
  destruct (compact_pages_spec page_size pages r.2 Hps0 Hne Hfit)
    as (buf' & Hrun & Hlen' & Htake & Hdrop).
  rewrite Hlen, Z2Nat.id in Hrun by lia.
  pose proof (init_out_pages_loop_defined w avail n page_size Hn Hint) as Hloop0.
  pose proof (compact_pages_loop_defined pages n r.2 ltac:(lia)) as Hloop.
  rewrite Hrun in Hloop.
  pose proof (total_nbytes_respected _ _ Hresp) as Htotal.
  pose proof (init_out_pages_total w avail n page_size Ha Hps0 Hn Hgeo) as Hsum.
  change (init_out_pages w avail n page_size) with pages0 in Hsum.
  rewrite Hsum in Htotal.
  unfold o. rewrite exr_compress_buffer_gdeflate_run. cbv zeta. rewrite Halloc.
  fold n. fold pages0. fold r. fold pages.
  destruct (Z.eqb_spec r.1.1 0) as [|_]; [contradiction|].
  rewrite Hrun. simpl.
  split; [reflexivity|]. split; [exact Hloop0|]. split; [exact Hloop|].
  split; [exact Hlen'|]. split; [exact Hdrop|].
  split; [|exact Htotal].
  intros p0 Hp0.
  destruct (Hfit 0%nat p0 Hp0) as (Hdata & Hnb & Hend & _).
  assert (Hsplit : pages = [p0] ++ drop 1 pages).
  { destruct pages as [|q rest]; [done|]. simpl in Hp0. injection Hp0 as ->.
    reflexivity. }
  assert (Hfirst : take (Z.to_nat (nbytes p0)) (concat (page_bytes r.2 <$> pages))
                   = page_bytes r.2 p0).
  { rewrite Hsplit at 1. rewrite fmap_app, concat_app. simpl.
    rewrite app_nil_r. apply take_app_length'.
    unfold page_bytes. rewrite length_take, length_drop. lia. }
  rewrite <- Htake in Hfirst. rewrite take_take in Hfirst.
  assert (Hle : nbytes p0 <= total_nbytes pages).
  { rewrite Hsplit, total_nbytes_app.
    assert (0 <= total_nbytes (drop 1 pages)).
    { apply total_nbytes_nonneg. apply Forall_forall. intros q Hq.
      apply list_elem_of_lookup in Hq as [i Hi]. rewrite lookup_drop in Hi.
      destruct (Hfit _ _ Hi) as (_ & H0 & _). exact H0. }
    unfold total_nbytes at 1. simpl. lia. }
  rewrite Nat.min_l in Hfirst by lia.
  rewrite Hfirst. unfold page_bytes. rewrite Hdata. simpl. reflexivity.
Qed.

(** The three pages of the compaction example, in fourteen bytes. *)
Lemma gdeflate_compaction_frame_witness :
  drop 6 (outbuf (world_of
            (exr_compress_buffer_gdeflate 64 (Toy.engine (Some 1%nat) 0) (-1) 2
               Toy.abcdef 6 14 3 4 None (Toy.fresh 14))))
  = [Byte.x00; Byte.x00; Byte.x65; Byte.x66; Byte.x00; Byte.x00;
     Byte.x00; Byte.x00].
Proof.
  destruct (gdeflate_compaction_frame 64 (Toy.engine (Some 1%nat) 0) (-1) 2
              Toy.abcdef 6 14 3 4 None (Toy.fresh 14) 1%nat)
    as (_ & _ & _ & _ & Hdrop & _).
  - reflexivity.
  - vm_compute; split; congruence.
  - vm_compute; split; congruence.
  - vm_compute; split; congruence.
  - reflexivity.
  - vm_compute; congruence.
  - vm_compute; congruence.
  - vm_compute; congruence.
  - vm_compute; congruence.
  - unfold engine_respects_pages.
    apply (bool_decide_unpack _). vm_compute. exact I.
  - exact Hdrop.
Defined.

(** Pages that follow one another without gaps hold, together, the front
    of the buffer. *)
Lemma concat_contiguous_pages buf pages :
  (forall (i : nat) p, pages !! i = Some p ->
     0 <= nbytes p /\ data p = total_nbytes (take i pages)) ->
  0 <= total_nbytes pages
  /\ concat (page_bytes buf <$> pages)
     = take (Z.to_nat (total_nbytes pages)) buf.
Proof.
  induction pages as [|p pages IH] using rev_ind; intros Hcont.
  - split; [unfold total_nbytes; simpl; lia | reflexivity].
  - destruct IH as [Hnn IH].
    { intros i q Hq. pose proof (lookup_lt_Some _ _ _ Hq) as Hi.
      destruct (Hcont i q) as [H0 Hd].
      - rewrite lookup_app_l by lia. exact Hq.
      - split; [exact H0|]. rewrite Hd, take_app_le by lia. reflexivity. }
    destruct (Hcont (length pages) p) as [H0 Hd].
    { rewrite lookup_app_r by lia. rewrite Nat.sub_diag. reflexivity. }
    rewrite take_app_length in Hd.
    rewrite total_nbytes_app. unfold total_nbytes at 2 4. simpl.
    split; [lia|].
    rewrite fmap_app, concat_app, IH. simpl. rewrite app_nil_r.
    unfold page_bytes. rewrite Hd.
    rewrite take_take_drop. f_equal. lia.
Qed.

Lemma total_nbytes_take_full page_size pages :
  (forall (j : nat) p, (S j < length pages)%nat -> pages !! j = Some p ->
     nbytes p = page_size) ->
  forall i : nat, (i < length pages)%nat ->
    total_nbytes (take i pages) = Z.of_nat i * page_size.
Proof.
  intros Hfull. induction i as [|i IH]; intros Hi.
  - reflexivity.
  - destruct (lookup_lt_is_Some_2 pages i ltac:(lia)) as [p Hp].
    rewrite (take_S_r _ _ _ Hp), total_nbytes_app, IH by lia.
    unfold total_nbytes at 1. simpl. rewrite (Hfull i p Hi Hp). lia.
Qed.

(** X15.  When no page but the last falls short of its slot (and the
    page count is within [int], the page slots lie inside the output and
    the engine keeps to its descriptors), the compaction loop is defined
    and moves nothing: the call returns Success with the output buffer
    exactly as the engine wrote it. *)
Theorem gdeflate_full_pages_not_moved
    w E d level inp in_bytes avail page_count page_size actual_out σ comp :
  0 < w -> is_size_t w avail -> is_size_t w page_count -> is_size_t w page_size ->
  libdeflate_alloc_gdeflate_compressor E (level_after_resolve d level) = Some comp ->
  let n := normalize_page_count page_count in
  let pages0 := init_out_pages w avail n page_size in
  let r := libdeflate_gdeflate_compress E comp inp in_bytes (outbuf σ) pages0 n in
  let pages := rewrite_pages pages0 r.1.2 in
  let o := exr_compress_buffer_gdeflate w E d level inp in_bytes avail
             page_count page_size actual_out σ in
  n <= INT_MAX ->
  r.1.1 <> 0 ->
  (n - 1) * page_size <= avail ->
  avail <= Z.of_nat (length r.2) ->
  engine_respects_pages pages0 pages ->
  (forall (i : nat) p, (S i < length pages)%nat -> pages !! i = Some p ->
     nbytes p = page_size) ->
  result_of o = Some EXR_ERR_SUCCESS
  /\ compact_pages_loop pages n r.2 = Some r.2
  /\ outbuf (world_of o) = r.2.
Proof.
  intros Hw Ha Hpc [Hps0 Hps] Halloc n pages0 r pages o Hint Hnz Hgeo Hbuf Hresp
    Hfull.
  pose proof (normalize_page_count_range w page_count Hw Hpc) as Hn.
  fold n in Hn.
  assert (Hlen : length pages = Z.to_nat n).
  { unfold pages. rewrite rewrite_pages_length.
    apply init_out_pages_length; assumption. }
  assert (Hne : pages <> []).
  { intros Hnil. rewrite Hnil in Hlen. simpl in Hlen. lia. }
  pose proof (pages_fit_of_geometry w avail n page_size pages r.2
                Ha Hps0 Hn Hgeo Hbuf Hresp) as Hfit.
  destruct (compact_pages_spec page_size pages r.2 Hps0 Hne Hfit)
    as (buf' & Hrun & Hlen' & Htake & Hdrop).
  rewrite Hlen, Z2Nat.id in Hrun by lia.
  destruct (concat_contiguous_pages r.2 pages) as [_ Hfront].
  { intros i p Hp. destruct (Hfit i p Hp) as (Hdata & H0 & _).
    split; [exact H0|].
    rewrite (total_nbytes_take_full page_size pages Hfull i)
      by (eapply lookup_lt_Some; eassumption).
    exact Hdata. }
  unfold o. rewrite exr_compress_buffer_gdeflate_run. cbv zeta. rewrite Halloc.
  fold n. fold pages0. fold r. fold pages.
  destruct (Z.eqb_spec r.1.1 0) as [|_]; [contradiction|].
  assert (Hsame : buf' = r.2).
  { rewrite <- (take_drop (Z.to_nat (total_nbytes pages)) buf').
    rewrite Htake, Hdrop, Hfront. apply take_drop. }
  rewrite Hrun. simpl. split; [reflexivity|].
  rewrite compact_pages_loop_defined, Hrun, Hsame by lia. auto.
Qed.

(** Six bytes in pages of two: every page is full and stays in place. *)
Lemma gdeflate_full_pages_not_moved_witness :
  outbuf (world_of
    (exr_compress_buffer_gdeflate 64 (Toy.engine (Some 1%nat) 0) (-1) 2
       Toy.abcdef 6 8 3 2 None (Toy.fresh 8)))
  = Toy.abcdef ++ [Byte.x00; Byte.x00].
Proof.
  destruct (gdeflate_full_pages_not_moved 64 (Toy.engine (Some 1%nat) 0) (-1) 2
              Toy.abcdef 6 8 3 2 None (Toy.fresh 8) 1%nat)
    as (_ & _ & Hbuf).
  - reflexivity.
  - vm_compute; split; congruence.
  - vm_compute; split; congruence.
  - vm_compute; split; congruence.
  - reflexivity.
  - vm_compute; congruence.
  - vm_compute; congruence.
  - vm_compute; congruence.
  - vm_compute; congruence.
  - unfold engine_respects_pages.
    apply (bool_decide_unpack _). vm_compute. exact I.
  - intros i p Hi Hp. vm_compute in Hi.
    destruct i as [|[|i]]; [| |lia]; vm_compute in Hp;
      injection Hp as <-; reflexivity.
  - exact (eq_trans Hbuf eq_refl).
Defined.

(** X16.  The allocators are never asked for a negative level: whatever
    the requested and the configured level, both compressors allocate with
    a level that is not negative, and resolving that level again leaves it
    as it is. *)
Theorem allocated_level_not_negative
    w E d level inp in_bytes avail page_count page_size actual_out σ :
  exists lv,
    0 <= lv
    /\ allocated_level
         (new_events σ (exr_compress_buffer E d level inp in_bytes avail
                          actual_out σ)) = Some lv
    /\ allocated_level
         (new_events σ (exr_compress_buffer_gdeflate w E d level inp in_bytes
                          avail page_count page_size actual_out σ)) = Some lv
    /\ level_after_resolve d lv = lv.
Proof.
  exists (level_after_resolve d level).
  destruct (exr_compress_buffer_events E d level inp in_bytes avail actual_out σ)
    as [_ ->].
  destruct (exr_compress_buffer_gdeflate_events w E d level inp in_bytes avail
              page_count page_size actual_out σ) as [_ ->].
  assert (H0 : 0 <= level_after_resolve d level).
  { unfold level_after_resolve, EXR_DEFAULT_ZLIB_COMPRESS_LEVEL.
    destruct (Z.ltb_spec level 0); [|lia].
    destruct (Z.ltb_spec d 0); lia. }
  split; [exact H0|]. split; [|split].
  - destruct (libdeflate_alloc_compressor E _);
      apply allocated_level_resolve_events.
  - destruct (libdeflate_alloc_gdeflate_compressor E _);
      apply allocated_level_resolve_events.
  - unfold level_after_resolve at 1.
    destruct (Z.ltb_spec (level_after_resolve d level) 0); [lia|reflexivity].
Qed.
